(** * XML Beauty: the request handlers of [app/main.py]

    A shallow embedding of the three XML endpoints ([/xml/format],
    [/xml/minify], [/xml/convert]) and of the helper [_extract_error_line],
    together with the Python built-ins they rely on ([str.strip],
    [str.splitlines], [str.join], [bytes.decode], [str.encode], [int],
    [re.search]).

    Layout: part I holds every definition (the Python run time, JSON
    responses, the interface of the XML libraries, the handlers, the library
    models and a reference instance of the interface); part II holds the
    lemmas and the theorems. *)

From Stdlib Require Import Ascii String DecimalN.
From Stdlib Require Import List Bool Arith ZArith NArith Lia.
From Stdlib.Strings Require Import Byte.
Import ListNotations.

Set Implicit Arguments.
Set Warnings "-register-all".

(* ===================================================================== *)
(** * Part I.  Definitions                                                *)
(* ===================================================================== *)

(** ** 1. Python values

    A [str] is a sequence of Unicode code points.  The strings a handler
    receives come out of the form decoder or of [bytes.decode], so they hold
    scalar values only (no lone surrogate); on those [str.encode("utf-8")]
    never raises, which is why [str_encode_utf8] below is a total function.
    A [bytes] object is a sequence of octets. *)

Definition codepoint := N.
Definition str := list codepoint.
Definition bytes := list byte.

(** A string literal of the source, as a [str]. *)
Definition lit (s : string) : str :=
  map N_of_ascii (list_ascii_of_string s).

(** [len(x)] *)
Definition len {A : Type} (l : list A) : N :=
  fold_left (fun n _ => N.succ n) l 0%N.

(** Equality of strings ([==] on [str]). *)
Fixpoint str_eqb (a b : str) : bool :=
  match a, b with
  | [], [] => true
  | x :: a', y :: b' => N.eqb x y && str_eqb a' b'
  | _, _ => false
  end.

(** What a call evaluates to: a value, or an exception [e] of which the
    handlers only ever read [str(e)]. *)
Inductive result (A : Type) : Type :=
| Returned (a : A)
| Raised (msg : str).

Arguments Returned {A} a.
Arguments Raised {A} msg.

(** ** 2. Character classes of the run time (Unicode 14, CPython 3.11) *)

Open Scope N_scope.

(** [str.isspace] on one character; [\s] of [re] on [str] patterns is the
    same set. *)
Definition isspace (c : codepoint) : bool :=
  ((9 <=? c) && (c <=? 13)) || ((28 <=? c) && (c <=? 32))
  || (c =? 0x85) || (c =? 0xa0) || (c =? 0x1680)
  || ((0x2000 <=? c) && (c <=? 0x200a))
  || (c =? 0x2028) || (c =? 0x2029) || (c =? 0x202f) || (c =? 0x205f)
  || (c =? 0x3000).

(** The line boundaries of [str.splitlines]: LF, VT, FF, CR, FS, GS, RS,
    NEL, LINE SEPARATOR, PARAGRAPH SEPARATOR. *)
Definition is_linebreak (c : codepoint) : bool :=
  ((10 <=? c) && (c <=? 13)) || ((28 <=? c) && (c <=? 30))
  || (c =? 0x85) || (c =? 0x2028) || (c =? 0x2029).

(** The code points of the digit zero of every decimal-digit block (general
    category Nd); each block is ten consecutive code points valued 0 to 9. *)
Definition decimal_zeros : list codepoint :=
  [48; 1632; 1776; 1984; 2406; 2534; 2662; 2790; 2918; 3046; 3174; 3302;
   3430; 3558; 3664; 3792; 3872; 4160; 4240; 6112; 6160; 6470; 6608; 6784;
   6800; 6992; 7088; 7232; 7248; 42528; 43216; 43264; 43472; 43504; 43600;
   44016; 65296; 66720; 68912; 69734; 69872; 69942; 70096; 70384; 70736;
   70864; 71248; 71360; 71472; 71904; 72016; 72784; 73040; 73120; 92768;
   92864; 93008; 120782; 120792; 120802; 120812; 120822; 123200; 123632;
   125264; 130032].

(** The decimal value of a character ([unicodedata.decimal]), if it has one. *)
Definition decimal_value (c : codepoint) : option N :=
  match find (fun z => (z <=? c) && (c <? z + 10)) decimal_zeros with
  | Some z => Some (c - z)
  | None => None
  end.

(** [str.isdecimal] on one character; [\d] of [re] on [str] patterns. *)
Definition isdecimal (c : codepoint) : bool :=
  match decimal_value c with Some _ => true | None => false end.

(** ** 3. [str] methods *)

(** [s.lstrip()] *)
Fixpoint lstrip (s : str) : str :=
  match s with
  | [] => []
  | c :: t => if isspace c then lstrip t else s
  end.

(** [s.rstrip()] *)
Fixpoint rstrip (s : str) : str :=
  match s with
  | [] => []
  | c :: t =>
      match rstrip t with
      | [] => if isspace c then [] else [c]
      | kept => c :: kept
      end
  end.

(** [s.strip()] *)
Definition strip (s : str) : str := rstrip (lstrip s).

(** [s.splitlines()]: [cur] is the line being read, last character first.
    A line ends at a boundary (CR LF counts as one); what follows the last
    boundary is a line only when it is not empty. *)
Fixpoint splitlines_from (cur : str) (s : str) : list str :=
  match s with
  | [] => match cur with [] => [] | _ => [rev cur] end
  | c :: t =>
      if is_linebreak c then
        rev cur ::
          match t with
          | d :: t' => if (c =? 13) && (d =? 10) then splitlines_from [] t'
                       else splitlines_from [] t
          | [] => splitlines_from [] t
          end
      else splitlines_from (c :: cur) t
  end.

Definition splitlines (s : str) : list str := splitlines_from [] s.

(** [sep.join(parts)] *)
Fixpoint join (sep : str) (parts : list str) : str :=
  match parts with
  | [] => []
  | p :: rest =>
      match rest with
      | [] => p
      | _ => p ++ sep ++ join sep rest
      end
  end.

(** [" " * n] *)
Definition spaces (n : Z) : str := repeat 32 (Z.to_nat n).

(** [str(n)] for a non-negative integer, as an f-string renders it. *)
Fixpoint str_of_uint (d : Decimal.uint) : str :=
  match d with
  | Decimal.Nil => []
  | Decimal.D0 d => 48 :: str_of_uint d
  | Decimal.D1 d => 49 :: str_of_uint d
  | Decimal.D2 d => 50 :: str_of_uint d
  | Decimal.D3 d => 51 :: str_of_uint d
  | Decimal.D4 d => 52 :: str_of_uint d
  | Decimal.D5 d => 53 :: str_of_uint d
  | Decimal.D6 d => 54 :: str_of_uint d
  | Decimal.D7 d => 55 :: str_of_uint d
  | Decimal.D8 d => 56 :: str_of_uint d
  | Decimal.D9 d => 57 :: str_of_uint d
  end.

Definition str_of_N (n : N) : str := str_of_uint (N.to_uint n).

(** ** 4. Codecs *)

Definition is_cont (b : N) : bool := (0x80 <=? b) && (b <=? 0xBF).

(** The value of a continuation byte. *)
Definition cont (b : N) : N := b - 0x80.

(** Strict UTF-8 decoding of a sequence of octets (given by their values):
    shortest form only, no surrogates, nothing above U+10FFFF. *)
Fixpoint utf8_decode (bs : list N) : option str :=
  match bs with
  | [] => Some []
  | b0 :: t0 =>
      if b0 <=? 0x7F then option_map (cons b0) (utf8_decode t0)
      else if (0xC2 <=? b0) && (b0 <=? 0xDF) then
        match t0 with
        | b1 :: t1 =>
            if is_cont b1
            then option_map (cons ((b0 - 0xC0) * 64 + cont b1)) (utf8_decode t1)
            else None
        | _ => None
        end
      else if (0xE0 <=? b0) && (b0 <=? 0xEF) then
        match t0 with
        | b1 :: b2 :: t2 =>
            if is_cont b1 && is_cont b2
               && (negb (b0 =? 0xE0) || (0xA0 <=? b1))
               && (negb (b0 =? 0xED) || (b1 <=? 0x9F))
            then option_map
                   (cons ((b0 - 0xE0) * 4096 + cont b1 * 64 + cont b2))
                   (utf8_decode t2)
            else None
        | _ => None
        end
      else if (0xF0 <=? b0) && (b0 <=? 0xF4) then
        match t0 with
        | b1 :: b2 :: b3 :: t3 =>
            if is_cont b1 && is_cont b2 && is_cont b3
               && (negb (b0 =? 0xF0) || (0x90 <=? b1))
               && (negb (b0 =? 0xF4) || (b1 <=? 0x8F))
            then option_map
                   (cons ((b0 - 0xF0) * 262144 + cont b1 * 4096
                          + cont b2 * 64 + cont b3))
                   (utf8_decode t3)
            else None
        | _ => None
        end
      else None
  end.

(** [contents.decode("utf-8")]: raises [UnicodeDecodeError] on an invalid
    sequence.  The handlers catch it without reading its message. *)
Definition bytes_decode_utf8 (contents : bytes) : result str :=
  match utf8_decode (map Byte.to_N contents) with
  | Some s => Returned s
  | None => Raised (lit "'utf-8' codec can't decode bytes")
  end.

(** The [errors] argument of a codec. *)
Inductive error_handler : Type := Strict | Ignore.

(** Decoding with a single-byte character map: an octet without a character
    raises under [Strict] and is skipped under [Ignore]. *)
Fixpoint decode_charmap (table : byte -> option codepoint)
    (errors : error_handler) (contents : bytes) : result str :=
  match contents with
  | [] => Returned []
  | b :: t =>
      match table b, errors with
      | Some c, _ =>
          match decode_charmap table errors t with
          | Returned s => Returned (c :: s)
          | Raised e => Raised e
          end
      | None, Ignore => decode_charmap table errors t
      | None, Strict => Raised (lit "character maps to <undefined>")
      end
  end.

(** Latin-1 gives octet [b] the code point [b]. *)
Definition latin1_table (b : byte) : option codepoint := Some (Byte.to_N b).

(** [contents.decode("latin-1", errors="ignore")] *)
Definition bytes_decode_latin1_ignore (contents : bytes) : result str :=
  decode_charmap latin1_table Ignore contents.

Definition utf8_encode_char (c : codepoint) : list N :=
  if c <=? 0x7F then [c]
  else if c <=? 0x7FF then [0xC0 + c / 64; 0x80 + c mod 64]
  else if c <=? 0xFFFF then
    [0xE0 + c / 4096; 0x80 + (c / 64) mod 64; 0x80 + c mod 64]
  else
    [0xF0 + c / 262144; 0x80 + (c / 4096) mod 64; 0x80 + (c / 64) mod 64;
     0x80 + c mod 64].

Definition byte_of_N (n : N) : byte :=
  match Byte.of_N n with Some b => b | None => x00 end.

(** [s.encode("utf-8")] *)
Definition str_encode_utf8 (s : str) : bytes :=
  flat_map (fun c => map byte_of_N (utf8_encode_char c)) s.

(** ** 5. [int(s)] *)

(** The white space [int] skips around the number: ASCII white space as C's
    [isspace] has it, and every non-ASCII character of [str.isspace]. *)
Definition int_isspace (c : codepoint) : bool :=
  ((9 <=? c) && (c <=? 13)) || (c =? 32) || ((128 <=? c) && isspace c).

Fixpoint drop_while (p : codepoint -> bool) (s : str) : str :=
  match s with
  | [] => []
  | c :: t => if p c then drop_while p t else s
  end.

Definition drop_while_end (p : codepoint -> bool) (s : str) : str :=
  rev (drop_while p (rev s)).

(** The digits of a literal: decimal digits of any script, single
    underscores allowed between two digits. *)
Fixpoint int_digits (after_digit : bool) (s : str) : option (list N) :=
  match s with
  | [] => if after_digit then Some [] else None
  | c :: t =>
      if c =? 95 then
        if after_digit then int_digits false t else None
      else
        match decimal_value c with
        | Some d => option_map (cons d) (int_digits true t)
        | None => None
        end
  end.

Definition digits_value (ds : list N) : N :=
  fold_left (fun acc d => acc * 10 + d) ds 0.

(** Below this many digits the conversion limit is not consulted. *)
Definition STR_DIGITS_CHECK_THRESHOLD : N := 640.

(** [int(s)] in base ten.  [max_str_digits] is the interpreter's
    [sys.get_int_max_str_digits()]: 4300 unless reconfigured, 0 for no
    limit; a literal with more digits raises [ValueError]. *)
Definition py_int (max_str_digits : N) (s : str) : result Z :=
  let body := drop_while_end int_isspace (drop_while int_isspace s) in
  let (negative, unsigned) :=
    match body with
    | 45 :: t => (true, t)
    | 43 :: t => (false, t)
    | _ => (false, body)
    end in
  match int_digits false unsigned with
  | None => Raised (lit "invalid literal for int() with base 10")
  | Some ds =>
      if (STR_DIGITS_CHECK_THRESHOLD <? len ds) && (0 <? max_str_digits)
         && (max_str_digits <? len ds)
      then Raised (lit "Exceeds the limit for integer string conversion")
      else
        let v := Z.of_N (digits_value ds) in
        Returned (if negative then Z.opp v else v)
  end.

(** The limit a stock interpreter starts with. *)
Definition DEFAULT_MAX_STR_DIGITS : N := 4300.

(** ** 6. [re.search(r'line\s+(\d+)', msg, re.IGNORECASE)] *)

(** The characters each letter of [line] matches under [re.IGNORECASE]: both
    cases, and for [i] also U+0130 and U+0131, which lower-case or
    case-fold to it. *)
Definition ci_l (c : codepoint) : bool := (c =? 108) || (c =? 76).
Definition ci_i (c : codepoint) : bool :=
  (c =? 105) || (c =? 73) || (c =? 0x130) || (c =? 0x131).
Definition ci_n (c : codepoint) : bool := (c =? 110) || (c =? 78).
Definition ci_e (c : codepoint) : bool := (c =? 101) || (c =? 69).

(** The longest prefix of characters satisfying [p], and the rest. *)
Fixpoint span (p : codepoint -> bool) (s : str) : str * str :=
  match s with
  | [] => ([], [])
  | c :: t =>
      if p c then let (a, b) := span p t in (c :: a, b) else ([], s)
  end.

(** The pattern matched at the start of [s]: group 1, if it matches.  Both
    repetitions are greedy, and neither can give a character back: what
    follows [\s+] must be a digit, which is no white space. *)
Definition match_line_here (s : str) : option str :=
  match s with
  | c1 :: c2 :: c3 :: c4 :: rest =>
      if ci_l c1 && ci_i c2 && ci_n c3 && ci_e c4 then
        match span isspace rest with
        | ([], _) => None
        | (_, after) =>
            match span isdecimal after with
            | ([], _) => None
            | (ds, _) => Some ds
            end
        end
      else None
  | _ => None
  end.

(** [re.search]: the match at the leftmost position that has one; the value
    is [m.group(1)]. *)
Fixpoint re_search_line (s : str) : option str :=
  match match_line_here s with
  | Some g => Some g
  | None =>
      match s with
      | [] => None
      | _ :: t => re_search_line t
      end
  end.

(** ** 7. JSON content and responses *)

(** What [JSONResponse] serialises: a [dict] keeps its keys in insertion
    order. *)
Inductive json : Type :=
| JNull
| JStr (s : str)
| JInt (n : Z)
| JList (items : list json)
| JDict (entries : list (str * json)).

(** [JSONResponse(content, status_code=...)]; the status is 200 when the
    source leaves it out. *)
Record Response : Type := JSONResponse { content : json; status_code : Z }.

(** An optional integer as JSON: [None] is rendered [null]. *)
Definition json_of_line (line : option Z) : json :=
  match line with Some n => JInt n | None => JNull end.

(** An uploaded file: its name and the bytes [await xml_file.read()] gives. *)
Record UploadFile : Type :=
  { filename : option str; file_contents : bytes }.

(** The framework's request object; no XML handler reads it. *)
Record Request : Type := { headers : list (str * str); client_host : str }.

(** What lies outside a request: the clock, as the text
    [datetime.utcnow().isoformat()] evaluates to. *)
Record World : Type := { utcnow_isoformat : str }.

(** ** 8. The imported XML libraries

    [defusedxml], [xml.dom.minidom], [xml.etree.ElementTree] and [xmltodict]
    are not part of the repository: the handlers are written against this
    interface.  Each entry is the call as the source makes it, a function
    of its arguments. *)
Class Libraries : Type := {
  (** [defused_et.fromstring(data)]; the handlers drop the tree. *)
  defused_fromstring : bytes -> result unit;
  (** [xml.dom.minidom.parseString(data)] *)
  Document : Type;
  minidom_parseString : bytes -> result Document;
  (** [dom.toprettyxml(indent=indent)] *)
  toprettyxml : Document -> str -> result str;
  (** [ET.fromstring(text)] *)
  Element : Type;
  ET_fromstring : str -> result Element;
  (** [ET.tostring(tree, encoding="utf-8")] *)
  ET_tostring : Element -> result bytes;
  (** [xmltodict.parse(text)] *)
  xmltodict_parse : str -> result json;
  (** [sys.get_int_max_str_digits()] of the interpreter *)
  int_max_str_digits : N
}.

(** ** 9. Running a handler

    A handler runs statements in order; each yields a value, raises, or
    returns a response.  The library calls made so far are recorded, oldest
    first. *)
Inductive LibCall : Type :=
| Call_defused_fromstring (data : bytes)
| Call_minidom_parseString (data : bytes)
| Call_toprettyxml (indent : str)
| Call_ET_fromstring (text : str)
| Call_ET_tostring
| Call_xmltodict_parse (text : str).

Inductive outcome (A : Type) : Type :=
| Value (a : A)
| Raise (msg : str)
| Return (r : Response).

Arguments Value {A} a.
Arguments Raise {A} msg.
Arguments Return {A} r.

Definition run (A : Type) : Type := (list LibCall * outcome A)%type.

Definition ret {A : Type} (a : A) : run A := ([], Value a).

Definition return_ {A : Type} (r : Response) : run A := ([], Return r).

Definition bind {A B : Type} (m : run A) (k : A -> run B) : run B :=
  match m with
  | (calls, Value a) => let (calls', o) := k a in (calls ++ calls', o)
  | (calls, Raise msg) => (calls, Raise msg)
  | (calls, Return r) => (calls, Return r)
  end.

Notation "x <- m ;; k" := (bind m (fun x => k))
  (at level 61, m at next level, right associativity).

(** A built-in that may raise. *)
Definition lift {A : Type} (r : result A) : run A :=
  ([], match r with Returned a => Value a | Raised msg => Raise msg end).

(** A library call, recorded. *)
Definition call {A : Type} (c : LibCall) (r : result A) : run A :=
  ([c], match r with Returned a => Value a | Raised msg => Raise msg end).

(** [try: body  except Exception as e: handler(str(e))] *)
Definition try_except {A : Type} (body : run A) (handler : str -> run A)
  : run A :=
  match body with
  | (calls, Raise msg) => let (calls', o) := handler msg in (calls ++ calls', o)
  | other => other
  end.

(** What the client gets: the response the handler returned, or the
    server's answer to an exception nobody caught. *)
Inductive served : Type :=
| Responded (r : Response)
| Uncaught (msg : str).

Definition serve (m : run Response) : served :=
  match snd m with
  | Value r => Responded r
  | Return r => Responded r
  | Raise msg => Uncaught msg
  end.

Definition calls_of {A : Type} (m : run A) : list LibCall := fst m.

(** ** 10. The handlers of [app/main.py] *)

Definition MAX_XML_BYTES : N := 1000000.

(** [{"error": message}] *)
Definition error_body (message : str) : json :=
  JDict [(lit "error", JStr message)].

(** [{"error": message, "line": line}] *)
Definition error_line_body (message : str) (line : option Z) : json :=
  JDict [(lit "error", JStr message); (lit "line", json_of_line line)].

Section Handlers.

Context {L : Libraries}.

(** [_extract_error_line(msg)] *)
Definition _extract_error_line (msg : str) : option Z :=
  match msg with
  | [] => None
  | _ =>
      match re_search_line msg with
      | Some group1 =>
          match py_int int_max_str_digits group1 with
          | Returned n => Some n
          | Raised _ => None
          end
      | None => None
      end
  end.

(** [xml_file and getattr(xml_file, "filename", None)]: the upload, when
    there is one and its name is not empty. *)
Definition named_upload (xml_file : option UploadFile) : option UploadFile :=
  match xml_file with
  | Some f =>
      match filename f with
      | Some (_ :: _) => Some f
      | _ => None
      end
  | None => None
  end.

(** The decode step of an upload:
    [try: raw = contents.decode("utf-8")]
    [except Exception: raw = contents.decode("latin-1", errors="ignore")] *)
Definition decode_contents (contents : bytes) : run str :=
  try_except (lift (bytes_decode_utf8 contents))
    (fun _ => lift (bytes_decode_latin1_ignore contents)).

(** The statements under [# pick source], the same in the three handlers up
    to the text [no_xml] of the last message: they leave the input in
    [raw], or return an error. *)
Definition pick_source (no_xml : str) (xml_text : option str)
    (xml_file : option UploadFile) : run str :=
  match named_upload xml_file with
  | Some f =>
      let contents := file_contents f in
      if MAX_XML_BYTES <? len contents then
        return_ (JSONResponse
          (error_body (lit "File too large (" ++ str_of_N (len contents)
                       ++ lit " bytes). Max " ++ str_of_N MAX_XML_BYTES
                       ++ lit " bytes."))
          400)
      else decode_contents contents
  | None =>
      match xml_text with
      | Some text =>
          let raw := text in
          if MAX_XML_BYTES <? len (str_encode_utf8 raw) then
            return_ (JSONResponse
              (error_body (lit "Text too large ("
                           ++ str_of_N (len (str_encode_utf8 raw))
                           ++ lit " bytes). Max " ++ str_of_N MAX_XML_BYTES
                           ++ lit " bytes."))
              400)
          else ret raw
      | None => return_ (JSONResponse (error_body no_xml) 400)
      end
  end.

(** [if not raw: return JSONResponse({"error": "Empty XML content."}, 400)] *)
Definition reject_empty (raw : str) : run unit :=
  match raw with
  | [] => return_ (JSONResponse (error_body (lit "Empty XML content.")) 400)
  | _ => ret tt
  end.

(** The validation block: [defused_et.fromstring(raw.encode("utf-8"))],
    with the parse error turned into a response. *)
Definition validate (raw : str) : run unit :=
  try_except
    (call (Call_defused_fromstring (str_encode_utf8 raw))
          (defused_fromstring (str_encode_utf8 raw)))
    (fun msg =>
       let line := _extract_error_line msg in
       return_ (JSONResponse
         (error_line_body (lit "XML parse error: " ++ msg) line) 400)).

(** [int(indent_spaces) if int(indent_spaces) in (2, 3, 4) else int(4)] *)
Definition chosen_indent (indent_spaces : Z) : Z :=
  if ((indent_spaces =? 2) || (indent_spaces =? 3) || (indent_spaces =? 4))%Z
  then indent_spaces else 4%Z.

(** ["\n".join([line for line in pretty.splitlines() if line.strip() != ""])] *)
Definition drop_blank_lines (pretty : str) : str :=
  join [10]
    (filter (fun line => negb (str_eqb (strip line) [])) (splitlines pretty)).

(** [POST /xml/format] *)
Definition xml_format (w : World) (request : Request)
    (xml_text : option str) (xml_file : option UploadFile)
    (indent_spaces : Z) : run Response :=
  raw <- pick_source
           (lit "No XML provided. Paste XML or upload an .xml file.")
           xml_text xml_file ;;
  let raw_stripped := strip raw in
  _ <- reject_empty raw_stripped ;;
  _ <- validate raw_stripped ;;
  pretty <-
    try_except
      (dom <- call (Call_minidom_parseString (str_encode_utf8 raw_stripped))
                   (minidom_parseString (str_encode_utf8 raw_stripped)) ;;
       let indent := chosen_indent indent_spaces in
       pretty <- call (Call_toprettyxml (spaces indent))
                      (toprettyxml dom (spaces indent)) ;;
       ret (drop_blank_lines pretty))
      (fun msg =>
         return_ (JSONResponse
           (error_body (lit "Failed to pretty-print XML: " ++ msg)) 400)) ;;
  return_ (JSONResponse (JDict [(lit "pretty", JStr pretty)]) 200).

(** [POST /xml/minify] *)
Definition xml_minify (w : World) (request : Request)
    (xml_text : option str) (xml_file : option UploadFile) : run Response :=
  raw <- pick_source (lit "No XML provided.") xml_text xml_file ;;
  let raw := strip raw in
  _ <- reject_empty raw ;;
  _ <- validate raw ;;
  compact <-
    try_except
      (tree <- call (Call_ET_fromstring raw) (ET_fromstring raw) ;;
       encoded <- call Call_ET_tostring (ET_tostring tree) ;;
       lift (bytes_decode_utf8 encoded))
      (fun msg =>
         return_ (JSONResponse
           (error_body (lit "XML minify error: " ++ msg)) 400)) ;;
  return_ (JSONResponse (JDict [(lit "pretty", JStr compact)]) 200).

(** [POST /xml/convert] *)
Definition xml_convert (w : World) (request : Request)
    (xml_text : option str) (xml_file : option UploadFile) : run Response :=
  raw <- pick_source (lit "No XML provided.") xml_text xml_file ;;
  let raw := strip raw in
  _ <- reject_empty raw ;;
  _ <- validate raw ;;
  parsed <-
    try_except
      (call (Call_xmltodict_parse raw) (xmltodict_parse raw))
      (fun msg =>
         return_ (JSONResponse
           (error_body (lit "XML->JSON parse error: " ++ msg)) 400)) ;;
  return_ (JSONResponse parsed 200).

(** The three [@app.post] routes. *)
Inductive endpoint : Type :=
| Format (indent_spaces : Z)
| Minify
| Convert.

(** A request to one of the routes, run by its handler. *)
Definition handle (e : endpoint) (w : World) (request : Request)
    (xml_text : option str) (xml_file : option UploadFile) : run Response :=
  match e with
  | Format indent_spaces => xml_format w request xml_text xml_file indent_spaces
  | Minify => xml_minify w request xml_text xml_file
  | Convert => xml_convert w request xml_text xml_file
  end.

End Handlers.

(** [GET /api/time], the route that does read the clock. *)
Definition api_time (w : World) : Response :=
  JSONResponse (JDict [(lit "utc", JStr (utcnow_isoformat w))]) 200.

(** ** 11. Parsed documents

    An element as the parsers hand it on: its tag, its attributes in
    document order, and its content, a sequence of child elements and runs
    of character data. *)
Inductive element : Type :=
| Elem (tag : str) (attrib : list (str * str))
       (children : list (element + str)).

Definition tag_of (e : element) : str := match e with Elem t _ _ => t end.
Definition attrib_of (e : element) : list (str * str) :=
  match e with Elem _ a _ => a end.


(** The character data of a content sequence, in document order. *)
Fixpoint child_texts (cs : list (element + str)) : list str :=
  match cs with
  | [] => []
  | inl _ :: cs' => child_texts cs'
  | inr s :: cs' => s :: child_texts cs'
  end.

(** How deep the elements nest: 1 for an element without child elements. *)
Fixpoint depth (e : element) : nat :=
  match e with
  | Elem _ _ cs =>
      S ((fix deepest (cs : list (element + str)) : nat :=
            match cs with
            | [] => O
            | inl c :: cs' => Nat.max (depth c) (deepest cs')
            | inr _ :: cs' => deepest cs'
            end) cs)
  end.

(** ** 12. The conversion of [xmltodict] *)

(** [push_data(item, key, data)] of the conversion: a key seen for the
    first time is set; seen again, its value becomes a list that grows at
    the end. *)
Fixpoint dict_push (item : list (str * json)) (key : str) (data : json)
  : list (str * json) :=
  match item with
  | [] => [(key, data)]
  | (k, v) :: rest =>
      if str_eqb k key then
        (k, match v with
            | JList items => JList (items ++ [data])
            | _ => JList [v; data]
            end) :: rest
      else (k, v) :: dict_push rest key data
  end.

Definition push_data (item : option (list (str * json))) (key : str)
    (data : json) : option (list (str * json)) :=
  Some (dict_push (match item with Some d => d | None => [] end) key data).

(** The attributes of an element as the conversion keeps them: each name
    prefixed with [@], or nothing at all for an element without any. *)
Definition attr_entries (attrs : list (str * str))
  : option (list (str * json)) :=
  match attrs with
  | [] => None
  | _ => Some (map (fun kv => (64 :: fst kv, JStr (snd kv))) attrs)
  end.

(** The end of an element: its character data joined and stripped, stored
    under [#text] beside attributes or children, or standing alone. *)
Definition finish_element (item : option (list (str * json)))
    (data : list str) : json :=
  let text := strip (concat data) in
  match item, text with
  | Some d, [] => JDict d
  | Some d, _ => JDict (dict_push d (lit "#text") (JStr text))
  | None, [] => JNull
  | None, _ => JStr text
  end.

(** The content of an element, child by child: [item] is the mapping built
    so far and [data] the character data read so far. *)
Fixpoint convert_children (value : element -> json)
    (cs : list (element + str)) (item : option (list (str * json)))
    (data : list str) : json :=
  match cs with
  | [] => finish_element item data
  | inl c :: cs' =>
      convert_children value cs' (push_data item (tag_of c) (value c)) data
  | inr s :: cs' => convert_children value cs' item (data ++ [s])
  end.

(** Modelled from the spec: [xmltodict] is an imported package whose code
    is not in the repository.  Section 4.5 of the spec gives its
    conventions: an element without children and attributes maps to its
    text; otherwise to a mapping of its attributes (prefixed), its text
    (under [#text]) and its child elements; repeated sibling tags collapse
    into one list, in document order. *)
Fixpoint element_value (e : element) : json :=
  match e with
  | Elem _ attrs cs =>
      convert_children element_value cs (attr_entries attrs) []
  end.

(** Modelled from the spec: [xmltodict.parse(text)] over the parser [expat]
    it drives; the document's root element becomes the sole top-level
    key. *)
Definition xmltodict_model (expat : str -> result element) (text : str)
  : result json :=
  match expat text with
  | Returned root => Returned (JDict [(tag_of root, element_value root)])
  | Raised msg => Raised msg
  end.

(** ** 13. The writers of [xml.dom.minidom] and [xml.etree.ElementTree]

    Both writers are recursive Python functions, one call per nesting level,
    so a document nested deeper than the interpreter allows makes them raise
    [RecursionError]; [frames] counts the calls still allowed. *)

(** [sys.getrecursionlimit()] of a stock interpreter. *)
Definition RECURSION_LIMIT : nat := 1000.

Definition recursion_error : str := lit "maximum recursion depth exceeded".

(** [s.replace(old, new)] for a one-character [old]. *)
Definition replace_char (old : codepoint) (new : str) (s : str) : str :=
  flat_map (fun c => if c =? old then new else [c]) s.

(** [_write_data] of [minidom]: the text with [&], [<], the double quote
    and [>] escaped, in that order. *)
Definition minidom_write_data (data : str) : str :=
  replace_char 62 (lit "&gt;")
    (replace_char 34 (lit "&quot;")
       (replace_char 60 (lit "&lt;")
          (replace_char 38 (lit "&amp;") data))).

(** One attribute as [Element.writexml] writes it: a space, the name, the
    escaped value between double quotes. *)
Definition minidom_attr (a : str * str) : str :=
  [32] ++ fst a ++ [61; 34] ++ minidom_write_data (snd a) ++ [34].

(** Modelled from the spec: [Element.writexml] and [Text.writexml] of
    [xml.dom.minidom], the DOM-style pretty-printer of section 4.3, which is
    an imported module and not part of the repository.  An element holding
    one text node is written on one line; any other content goes on lines of
    its own, one [addindent] deeper. *)
Fixpoint minidom_writexml (e : element) (frames : nat)
    (indent addindent newl : str) {struct e} : result str :=
  match frames with
  | O => Raised recursion_error
  | S frames' =>
      match e with
      | Elem tagName attrs childNodes =>
          let start := indent ++ [60] ++ tagName ++ flat_map minidom_attr attrs in
          let stop := [60; 47] ++ tagName ++ [62] ++ newl in
          match childNodes with
          | [] => Returned (start ++ [47; 62] ++ newl)
          | [inr data] =>
              Returned (start ++ [62] ++ minidom_write_data data ++ stop)
          | _ =>
              match
                (fix write_children (nodes : list (element + str))
                   : result str :=
                   match nodes with
                   | [] => Returned []
                   | inl c :: nodes' =>
                       match minidom_writexml c frames' (indent ++ addindent)
                               addindent newl with
                       | Returned s =>
                           match write_children nodes' with
                           | Returned r => Returned (s ++ r)
                           | Raised msg => Raised msg
                           end
                       | Raised msg => Raised msg
                       end
                   | inr data :: nodes' =>
                       match write_children nodes' with
                       | Returned r =>
                           Returned
                             (minidom_write_data
                                ((indent ++ addindent) ++ data ++ newl) ++ r)
                       | Raised msg => Raised msg
                       end
                   end) childNodes
              with
              | Returned body =>
                  Returned (start ++ [62] ++ newl ++ body ++ indent ++ stop)
              | Raised msg => Raised msg
              end
          end
      end
  end.

(** The XML declaration [Document.writexml] starts with. *)
Definition xml_declaration : str :=
  lit "<?xml version=" ++ [34] ++ lit "1.0" ++ [34] ++ lit " ?>".

(** Modelled from the spec: [dom.toprettyxml(indent=indent)] for a document
    made of its root element. *)
Definition minidom_toprettyxml (dom : element) (indent : str) : result str :=
  match minidom_writexml dom RECURSION_LIMIT [] indent [10] with
  | Returned body => Returned (xml_declaration ++ [10] ++ body)
  | Raised msg => Raised msg
  end.

(** [_escape_cdata] of [ElementTree] *)
Definition escape_cdata (text : str) : str :=
  replace_char 62 (lit "&gt;")
    (replace_char 60 (lit "&lt;") (replace_char 38 (lit "&amp;") text)).

(** [_escape_attrib] of [ElementTree] *)
Definition escape_attrib (text : str) : str :=
  replace_char 9 (lit "&#09;")
    (replace_char 10 (lit "&#10;")
       (replace_char 13 (lit "&#13;")
          (replace_char 34 (lit "&quot;") (escape_cdata text)))).

Definition et_attr (a : str * str) : str :=
  [32] ++ fst a ++ [61; 34] ++ escape_attrib (snd a) ++ [34].

(** Modelled from the spec: [_serialize_xml] of [xml.etree.ElementTree], the
    compact (non-pretty) writer of section 4.4, for elements without
    namespaces.  Nothing is written between two tags but the character data
    found there; an element without content is written [<tag />]. *)
Fixpoint et_serialize (e : element) (frames : nat) {struct e} : result str :=
  match frames with
  | O => Raised recursion_error
  | S frames' =>
      match e with
      | Elem tag attrs cs =>
          let start := [60] ++ tag ++ flat_map et_attr attrs in
          match cs with
          | [] => Returned (start ++ lit " />")
          | _ =>
              match
                (fix write_content (nodes : list (element + str))
                   : result str :=
                   match nodes with
                   | [] => Returned []
                   | inl c :: nodes' =>
                       match et_serialize c frames' with
                       | Returned s =>
                           match write_content nodes' with
                           | Returned r => Returned (s ++ r)
                           | Raised msg => Raised msg
                           end
                       | Raised msg => Raised msg
                       end
                   | inr text :: nodes' =>
                       match write_content nodes' with
                       | Returned r => Returned (escape_cdata text ++ r)
                       | Raised msg => Raised msg
                       end
                   end) cs
              with
              | Returned body =>
                  Returned (start ++ [62] ++ body ++ [60; 47] ++ tag ++ [62])
              | Raised msg => Raised msg
              end
          end
      end
  end.

(** [ET.tostring(tree, encoding="utf-8")] *)
Definition et_tostring (tree : element) : result bytes :=
  match et_serialize tree RECURSION_LIMIT with
  | Returned s => Returned (str_encode_utf8 s)
  | Raised msg => Raised msg
  end.

(** ** 14. A reference parser

    The parsers behind the four libraries are expat's, which is C code
    outside the repository.  To run the handlers on concrete documents the
    interface is instantiated with a small parser for the element,
    attribute and character-data fragment of XML (no declaration, comment,
    processing instruction, CDATA section or DTD: those it reports as not
    well-formed).  Its messages have expat's shape, [kind: line L, column C]. *)

Definition xml_space (c : codepoint) : bool :=
  (c =? 32) || (c =? 9) || (c =? 10) || (c =? 13).

Definition name_start (c : codepoint) : bool :=
  ((65 <=? c) && (c <=? 90)) || ((97 <=? c) && (c <=? 122))
  || (c =? 95) || (c =? 58) || (128 <=? c).

Definition name_char (c : codepoint) : bool :=
  name_start c || ((48 <=? c) && (c <=? 57)) || (c =? 45) || (c =? 46).

(** The character a predefined entity stands for. *)
Definition entity_char (name : str) : option codepoint :=
  if str_eqb name (lit "lt") then Some 60
  else if str_eqb name (lit "gt") then Some 62
  else if str_eqb name (lit "amp") then Some 38
  else if str_eqb name (lit "quot") then Some 34
  else if str_eqb name (lit "apos") then Some 39
  else None.

(** Character data with its entity references replaced; [ent] is the name
    being read after an ampersand, last character first. *)
Fixpoint unescape_from (ent : option str) (s : str) : option str :=
  match s with
  | [] => match ent with None => Some [] | Some _ => None end
  | c :: t =>
      match ent with
      | None =>
          if c =? 38 then unescape_from (Some []) t
          else option_map (cons c) (unescape_from None t)
      | Some name =>
          if c =? 59 then
            match entity_char (rev name) with
            | Some ch => option_map (cons ch) (unescape_from None t)
            | None => None
            end
          else unescape_from (Some (c :: name)) t
      end
  end.

Definition unescape (s : str) : option str := unescape_from None s.

Inductive token : Type :=
| TStart (tag : str) (attrs : list (str * str)) (empty : bool)
| TEnd (tag : str)
| TText (data : str).

(** A parse error: its kind, and how many characters were left unread. *)
Definition parse_error : Type := (str * nat)%type.

Definition invalid_token : str := lit "not well-formed (invalid token)".
Definition unclosed_token : str := lit "unclosed token".

Definition has_key (key : str) (attrs : list (str * str)) : bool :=
  existsb (fun kv => str_eqb (fst kv) key) attrs.

(** The attributes of a start tag, up to the [>] or [/>] that ends it;
    [start] is where the tag began, for the error of a tag that never ends. *)
Fixpoint lex_attrs (fuel : nat) (start : nat) (seen : list (str * str))
    (s : str)
  : (list (str * str) * str) + parse_error :=
  match fuel with
  | O => inr (unclosed_token, start)
  | S fuel' =>
      let s1 := drop_while xml_space s in
      match s1 with
      | [] => inr (unclosed_token, start)
      | c :: _ =>
          if negb (name_start c) then inl (rev seen, s1)
          else if Nat.eqb (length s1) (length s) then
            inr (invalid_token, length s1)
          else
            let (name, s2) := span name_char s1 in
            if has_key name seen then
              inr (lit "duplicate attribute", length s1)
            else
              match drop_while xml_space s2 with
              | [] => inr (unclosed_token, start)
              | eq :: s3 =>
                  if negb (eq =? 61) then inr (invalid_token, length (eq :: s3))
                  else
                    match drop_while xml_space s3 with
                    | [] => inr (unclosed_token, start)
                    | q :: s4 =>
                        if negb ((q =? 34) || (q =? 39)) then
                          inr (invalid_token, length (q :: s4))
                        else
                          let (raw, s5) := span (fun c => negb (c =? q)) s4 in
                          match s5 with
                          | [] => inr (unclosed_token, start)
                          | _ :: s6 =>
                              if existsb (N.eqb 60) raw then
                                inr (invalid_token, length s4)
                              else
                                match unescape raw with
                                | None => inr (lit "undefined entity", length s4)
                                | Some value =>
                                    lex_attrs fuel' start ((name, value) :: seen) s6
                                end
                          end
                    end
              end
      end
  end.

(** The tokens of a document, each with the number of characters that were
    left when it started. *)
Fixpoint lex (fuel : nat) (s : str) : list (token * nat) + parse_error :=
  match fuel with
  | O => inl []
  | S fuel' =>
      match s with
      | [] => inl []
      | c :: t =>
          let more (tok : token) (rest : str) :=
            match lex fuel' rest with
            | inl toks => inl ((tok, length s) :: toks)
            | inr e => inr e
            end in
          if c =? 60 then
            match t with
            | [] => inr (unclosed_token, length s)
            | d :: t' =>
                if d =? 47 then
                  let (name, r) := span name_char t' in
                  match name with
                  | [] => inr (invalid_token, length t')
                  | n0 :: _ =>
                      if negb (name_start n0) then
                        inr (invalid_token, length t')
                      else
                        match drop_while xml_space r with
                        | [] => inr (unclosed_token, length s)
                        | g :: r' =>
                            if g =? 62 then more (TEnd name) r'
                            else inr (invalid_token, length (g :: r'))
                        end
                  end
                else if name_start d then
                  let (name, r) := span name_char t in
                  match lex_attrs (S (length r)) (length s) [] r with
                  | inr e => inr e
                  | inl (attrs, r1) =>
                      match r1 with
                      | [] => inr (unclosed_token, length s)
                      | g :: r2 =>
                          if g =? 62 then more (TStart name attrs false) r2
                          else if g =? 47 then
                            match r2 with
                            | [] => inr (unclosed_token, length s)
                            | h :: r3 =>
                                if h =? 62 then more (TStart name attrs true) r3
                                else inr (invalid_token, length r2)
                            end
                          else inr (invalid_token, length r1)
                      end
                  end
                else inr (invalid_token, length t)
            end
          else
            let (raw, r) := span (fun c => negb (c =? 60)) s in
            match unescape raw with
            | None => inr (lit "undefined entity", length s)
            | Some data => more (TText data) r
            end
      end
  end.

(** An element whose end tag has not been read: its tag, its attributes
    and its content so far, last item first. *)
Definition open_element : Type :=
  (str * list (str * str) * list (element + str))%type.

(** The tree of a token sequence: [stack] holds the open elements,
    innermost first, and [root] the document element once it is closed. *)
Fixpoint build (tokens : list (token * nat)) (stack : list open_element)
    (root : option element) : element + parse_error :=
  match tokens with
  | [] =>
      match stack, root with
      | [], Some e => inl e
      | _, _ => inr (lit "no element found", O)
      end
  | (tok, unread) :: rest =>
      let close (e : element) :=
        match stack with
        | [] => build rest [] (Some e)
        | (t, a, cs) :: outer => build rest ((t, a, inl e :: cs) :: outer) root
        end in
      match tok with
      | TText data =>
          match stack with
          | [] =>
              if forallb xml_space data then build rest stack root
              else
                match root with
                | None => inr (lit "syntax error", unread)
                | Some _ => inr (lit "junk after document element", unread)
                end
          | (t, a, cs) :: outer =>
              build rest ((t, a, inr data :: cs) :: outer) root
          end
      | TStart tag attrs empty =>
          match stack, root with
          | [], Some _ => inr (lit "junk after document element", unread)
          | _, _ =>
              if empty then
                match stack with
                | [] => build rest [] (Some (Elem tag attrs []))
                | (t, a, cs) :: outer =>
                    build rest ((t, a, inl (Elem tag attrs []) :: cs) :: outer)
                      root
                end
              else build rest ((tag, attrs, []) :: stack) root
          end
      | TEnd tag =>
          match stack with
          | [] => inr (invalid_token, (unread - 1)%nat)
          | (t, a, cs) :: outer =>
              if str_eqb t tag then
                match outer with
                | [] => build rest [] (Some (Elem t a (rev cs)))
                | (t', a', cs') :: outer' =>
                    build rest
                      ((t', a', inl (Elem t a (rev cs)) :: cs') :: outer') root
                end
              else inr (lit "mismatched tag", (unread - 2)%nat)
          end
      end
  end.

(** [kind: line L, column C] for an error met [snd e] characters before the
    end of [text]. *)
Definition error_message (text : str) (e : parse_error) : str :=
  let read := firstn (length text - snd e) text in
  let line := N.succ (len (filter (N.eqb 10) read)) in
  let column := len (fst (span (fun c => negb (c =? 10)) (rev read))) in
  fst e ++ lit ": line " ++ str_of_N line ++ lit ", column " ++ str_of_N column.

(** The reference parser on a [str]. *)
Definition reference_parse (text : str) : result element :=
  match lex (S (length text)) text with
  | inr e => Raised (error_message text e)
  | inl tokens =>
      match build tokens [] None with
      | inl root => Returned root
      | inr e => Raised (error_message text e)
      end
  end.

(** The reference parser on [bytes], read as UTF-8. *)
Definition reference_parse_bytes (data : bytes) : result element :=
  match bytes_decode_utf8 data with
  | Returned text => reference_parse text
  | Raised _ => Raised (error_message [] (invalid_token, O))
  end.

(** The interface over the reference parser, the library models above and
    the settings of a stock interpreter. *)
Definition reference_libraries : Libraries :=
  {| defused_fromstring := fun data =>
       match reference_parse_bytes data with
       | Returned _ => Returned tt
       | Raised msg => Raised msg
       end;
     Document := element;
     minidom_parseString := reference_parse_bytes;
     toprettyxml := minidom_toprettyxml;
     Element := element;
     ET_fromstring := reference_parse;
     ET_tostring := et_tostring;
     xmltodict_parse := xmltodict_model reference_parse;
     int_max_str_digits := DEFAULT_MAX_STR_DIGITS |}.

(** A library whose validation rejects every document with the message
    [msg], and is the reference instance otherwise. *)
Definition rejecting_libraries (msg : str) : Libraries :=
  {| defused_fromstring := fun _ => Raised msg;
     Document := element;
     minidom_parseString := reference_parse_bytes;
     toprettyxml := minidom_toprettyxml;
     Element := element;
     ET_fromstring := reference_parse;
     ET_tostring := et_tostring;
     xmltodict_parse := xmltodict_model reference_parse;
     int_max_str_digits := DEFAULT_MAX_STR_DIGITS |}.

(** ** 15. The notions the statements are written in *)

(** The size the handlers measure: the byte count of the named upload, else
    the UTF-8 length of the inline text, else nothing. *)
Definition measured_size (xml_text : option str)
    (xml_file : option UploadFile) : option N :=
  match named_upload xml_file with
  | Some f => Some (len (file_contents f))
  | None =>
      match xml_text with
      | Some text => Some (len (str_encode_utf8 text))
      | None => None
      end
  end.

(** The text of the input: the upload decoded as UTF-8, or as Latin-1 when
    it is not valid UTF-8; else the inline text. *)
Definition input_text (xml_text : option str) (xml_file : option UploadFile)
  : str :=
  match named_upload xml_file with
  | Some f =>
      match utf8_decode (map Byte.to_N (file_contents f)) with
      | Some s => s
      | None => map Byte.to_N (file_contents f)
      end
  | None => match xml_text with Some text => text | None => [] end
  end.

(** The message of a size error naming [n] bytes; [what] is [File] or
    [Text]. *)
Definition too_large (what : str) (n : N) : str :=
  what ++ lit " too large (" ++ str_of_N n ++ lit " bytes). Max "
       ++ str_of_N MAX_XML_BYTES ++ lit " bytes.".

(** [r] is the size error for a measured size of [n] bytes. *)
Definition is_size_error (r : Response) (n : N) : Prop :=
  status_code r = 400%Z
  /\ (content r = error_body (too_large (lit "File") n)
      \/ content r = error_body (too_large (lit "Text") n)).



(** A line is blank when nothing is left of it after stripping. *)
Definition blank (line : str) : Prop := strip line = [].

(** The text a library call is given to process, for the calls that take
    the input text. *)
Definition text_given (c : LibCall) (text : str) : Prop :=
  c = Call_defused_fromstring (str_encode_utf8 text)
  \/ c = Call_minidom_parseString (str_encode_utf8 text)
  \/ c = Call_ET_fromstring text
  \/ c = Call_xmltodict_parse text.

(** The calls that work on an already parsed document. *)
Definition on_parsed_document (c : LibCall) : Prop :=
  (exists indent, c = Call_toprettyxml indent) \/ c = Call_ET_tostring.

(** The word [line] in any case, as the pattern reads it. *)
Definition is_line_word (word : str) : Prop :=
  match word with
  | [c1; c2; c3; c4] => ci_l c1 && ci_i c2 && ci_n c3 && ci_e c4 = true
  | _ => False
  end.

(** The pattern ["line <digits>"] matches [msg] after the prefix [pre], with
    [digits] the longest run of digits that follows the white space. *)
Definition matches_at (msg pre digits : str) : Prop :=
  exists word ws post : str,
    msg = pre ++ word ++ ws ++ digits ++ post
    /\ is_line_word word
    /\ ws <> [] /\ Forall (fun c => isspace c = true) ws
    /\ digits <> [] /\ Forall (fun c => isdecimal c = true) digits
    /\ match post with [] => True | c :: _ => isdecimal c = false end.

(** [digits] is what the first match in [msg] captures. *)
Definition first_match (msg digits : str) : Prop :=
  exists pre : str,
    matches_at msg pre digits
    /\ forall pre' digits' : str,
         matches_at msg pre' digits' -> (length pre <= length pre')%nat.

Definition no_match (msg : str) : Prop :=
  forall pre digits : str, ~ matches_at msg pre digits.

(** The integer a run of decimal digits denotes. *)
Definition number_of (digits : str) : Z :=
  Z.of_N (digits_value
            (map (fun c => match decimal_value c with
                           | Some d => d
                           | None => 0
                           end) digits)).

(** A run of digits the interpreter converts: short, or within the limit,
    or no limit set. *)
Definition within_limit (max_str_digits : N) (digits : str) : bool :=
  negb ((STR_DIGITS_CHECK_THRESHOLD <? len digits) && (0 <? max_str_digits)
        && (max_str_digits <? len digits)).





(** [n] copies of the character [c]. *)
Definition copies (n : N) (c : codepoint) : str := N.iter n (cons c) [].

(** [File] for a named upload, [Text] otherwise: the word a size error
    starts with. *)
Definition source_name (xml_file : option UploadFile) : str :=
  match named_upload xml_file with
  | Some _ => lit "File"
  | None => lit "Text"
  end.

(** A string without any line boundary. *)
Definition no_break (l : str) : Prop :=
  Forall (fun c => is_linebreak c = false) l.

(** A line as [drop_blank_lines] keeps it: not empty, without a boundary. *)
Definition proper_line (l : str) : Prop := l <> [] /\ no_break l.

(** The lines [drop_blank_lines] keeps. *)
Definition kept_lines (pretty : str) : list str :=
  filter (fun line => negb (str_eqb (strip line) [])) (splitlines pretty).

Section Responses.

Context {L : Libraries}.

(** The response to a document the validation rejects with [msg]. *)
Definition parse_error_response (msg : str) : Response :=
  JSONResponse
    (error_line_body (lit "XML parse error: " ++ msg) (_extract_error_line msg))
    400.

End Responses.

(** The response to an input that strips to nothing. *)
Definition empty_response : Response :=
  JSONResponse (error_body (lit "Empty XML content.")) 400.

(** The response to a stage that failed with [msg]; [stage] is the text
    the message starts with. *)
Definition stage_error_response (stage msg : str) : Response :=
  JSONResponse (error_body (stage ++ msg)) 400.

(** The success response of [/xml/format] and [/xml/minify]. *)
Definition pretty_response (s : str) : Response :=
  JSONResponse (JDict [(lit "pretty", JStr s)]) 200.

(** The message for a request without input, by route. *)
Definition no_xml_message (e : endpoint) : str :=
  match e with
  | Format _ => lit "No XML provided. Paste XML or upload an .xml file."
  | _ => lit "No XML provided."
  end.

(** A world and a request to run the handlers in. *)
Definition new_year : World :=
  {| utcnow_isoformat := lit "2024-01-01T00:00:00" |}.

Definition plain_request : Request := {| headers := []; client_host := [] |}.




(** A Unicode scalar value: a code point that is no surrogate. *)
Definition scalar (c : codepoint) : bool :=
  (c <? 0xD800) || ((0xDFFF <? c) && (c <=? 0x10FFFF)).






(* ===================================================================== *)
(** * Part II.  Lemmas and theorems                                       *)
(* ===================================================================== *)

Unset Implicit Arguments.
(** ** 1. Lists and strings *)

Lemma len_length (A : Type) (l : list A) : len l = N.of_nat (length l).
Proof.
  unfold len.
  assert (H : forall (l : list A) (n : N),
             fold_left (fun n _ => N.succ n) l n = n + N.of_nat (length l)).
  { clear l. induction l as [|a l IH]; intros n; simpl.
    - lia.
    - rewrite IH. lia. }
  rewrite H. lia.
Qed.

Lemma str_eqb_eq (a b : str) : str_eqb a b = true <-> a = b.
Proof.
  revert b. induction a as [|x a IH]; intros [|y b]; simpl; split;
    try discriminate; try reflexivity.
  - intros H. apply andb_true_iff in H. destruct H as [H1 H2].
    apply N.eqb_eq in H1. apply IH in H2. now subst.
  - intros H. injection H as -> ->. rewrite N.eqb_refl. now apply IH.
Qed.

Lemma str_eqb_refl (a : str) : str_eqb a a = true.
Proof. now apply str_eqb_eq. Qed.

Lemma str_eqb_neq (a b : str) : str_eqb a b = false <-> a <> b.
Proof.
  split.
  - intros H E. apply str_eqb_eq in E. congruence.
  - intros H. destruct (str_eqb a b) eqn:E; [|reflexivity].
    apply str_eqb_eq in E. contradiction.
Qed.

(** Induction two elements at a time, for functions that look one
    character ahead. *)
Lemma list_ind2 (A : Type) (P : list A -> Prop) :
  P [] -> (forall a, P [a]) ->
  (forall a b l, P l -> P (b :: l) -> P (a :: b :: l)) ->
  forall l, P l.
Proof.
  intros H0 H1 H2.
  assert (H : forall l, P l /\ forall a, P (a :: l)).
  { induction l as [|b l [IH1 IH2]]; split; auto. }
  intros l. apply H.
Qed.

(** ** 2. [strip] *)

Lemma lstrip_head (s : str) :
  lstrip s = [] \/ exists c t, lstrip s = c :: t /\ isspace c = false.
Proof.
  induction s as [|c t IH]; simpl; [now left|].
  destruct (isspace c) eqn:E; [exact IH|].
  right. now exists c, t.
Qed.

Lemma lstrip_fixed (c : codepoint) (t : str) :
  isspace c = false -> lstrip (c :: t) = c :: t.
Proof. intros H. simpl. now rewrite H. Qed.

Lemma rstrip_keeps_head (c : codepoint) (t : str) :
  isspace c = false -> exists r, rstrip (c :: t) = c :: r.
Proof.
  intros H. simpl. destruct (rstrip t) as [|k ks].
  - rewrite H. now exists [].
  - now exists (k :: ks).
Qed.

Lemma rstrip_idem (s : str) : rstrip (rstrip s) = rstrip s.
Proof.
  induction s as [|c t IH]; simpl; [reflexivity|].
  destruct (rstrip t) as [|k ks] eqn:E.
  - destruct (isspace c) eqn:Ec; simpl; [reflexivity|]. now rewrite Ec.
  - change (rstrip (c :: k :: ks)) with
      (match rstrip (k :: ks) with
       | [] => if isspace c then [] else [c]
       | kept => c :: kept
       end).
    now rewrite IH.
Qed.

(** Stripping a stripped string changes nothing. *)
Lemma strip_idem (s : str) : strip (strip s) = strip s.
Proof.
  unfold strip. destruct (lstrip_head s) as [E | (c & t & E & Hc)].
  - rewrite E. reflexivity.
  - rewrite E. destruct (rstrip_keeps_head c t Hc) as [r Er].
    rewrite Er. rewrite (lstrip_fixed c r Hc). rewrite <- Er.
    apply rstrip_idem.
Qed.

Lemma rstrip_all_space (s : str) :
  forallb isspace s = true -> rstrip s = [].
Proof.
  induction s as [|c t IH]; simpl; [reflexivity|].
  intros H. apply andb_true_iff in H. destruct H as [Hc Ht].
  rewrite (IH Ht). now rewrite Hc.
Qed.

Lemma lstrip_all_space (s : str) :
  forallb isspace s = true -> lstrip s = [].
Proof.
  induction s as [|c t IH]; simpl; [reflexivity|].
  intros H. apply andb_true_iff in H. destruct H as [Hc Ht].
  rewrite Hc. now apply IH.
Qed.

(** A string of white space only strips to nothing. *)
Lemma strip_all_space (s : str) : forallb isspace s = true -> strip s = [].
Proof. intros H. unfold strip. now rewrite (lstrip_all_space s H). Qed.

Lemma rstrip_nil_inv (s : str) : rstrip s = [] -> forallb isspace s = true.
Proof.
  induction s as [|c t IH]; simpl; [reflexivity|].
  destruct (rstrip t) as [|k ks]; [|discriminate].
  destruct (isspace c); [|discriminate]. intros _. now rewrite IH.
Qed.

Lemma lstrip_space_prefix (s : str) :
  exists ws, s = ws ++ lstrip s /\ forallb isspace ws = true.
Proof.
  induction s as [|c t (ws & E & H)]; simpl.
  - now exists [].
  - destruct (isspace c) eqn:Ec.
    + exists (c :: ws). simpl. rewrite Ec, H. split; [now f_equal|reflexivity].
    + now exists [].
Qed.

(** Only a string of white space strips to nothing. *)
Lemma strip_nil_inv (s : str) : strip s = [] -> forallb isspace s = true.
Proof.
  unfold strip. intros H. apply rstrip_nil_inv in H.
  destruct (lstrip_space_prefix s) as (ws & E & Hws).
  rewrite E, forallb_app, Hws, H. reflexivity.
Qed.

(** ** 3. [splitlines] and [join] *)

Lemma no_break_rev (l : str) : no_break l -> no_break (rev l).
Proof. unfold no_break. apply Forall_rev. Qed.

(** No line of [splitlines] holds a line boundary. *)
Lemma splitlines_from_no_break (s : str) :
  forall cur, no_break cur -> Forall no_break (splitlines_from cur s).
Proof.
  induction s as [| a | a b l IHl IHbl] using list_ind2; intros cur Hcur.
  - simpl. destruct cur; constructor; [|constructor].
    now apply no_break_rev.
  - simpl. destruct (is_linebreak a) eqn:Ea.
    + constructor; [now apply no_break_rev | constructor].
    + constructor; [|constructor].
      apply (no_break_rev (a :: cur)). now constructor.
  - cbn [splitlines_from]. destruct (is_linebreak a) eqn:Ea.
    + constructor; [now apply no_break_rev|].
      destruct ((a =? 13) && (b =? 10)).
      * apply IHl. constructor.
      * apply IHbl. constructor.
    + apply IHbl. now constructor.
Qed.

Lemma splitlines_no_break (s : str) : Forall no_break (splitlines s).
Proof. apply splitlines_from_no_break. constructor. Qed.

(** Reading characters that are no boundary extends the current line. *)
Lemma splitlines_from_app (l : str) :
  no_break l ->
  forall cur rest,
    splitlines_from cur (l ++ rest) = splitlines_from (rev l ++ cur) rest.
Proof.
  induction l as [|c l IH]; intros Hl cur rest; [reflexivity|].
  inversion Hl as [|? ? Hc Hl']; subst.
  cbn [app splitlines_from]. rewrite Hc. rewrite (IH Hl').
  cbn [rev]. now rewrite <- app_assoc.
Qed.

Lemma splitlines_from_newline (cur rest : str) :
  splitlines_from cur (10 :: rest) = rev cur :: splitlines_from [] rest.
Proof. destruct rest; reflexivity. Qed.

Lemma splitlines_from_end (cur : str) :
  cur <> [] -> splitlines_from cur [] = [rev cur].
Proof. destruct cur; [contradiction|reflexivity]. Qed.

Lemma join_cons (sep p q : str) (rest : list str) :
  join sep (p :: q :: rest) = p ++ sep ++ join sep (q :: rest).
Proof. reflexivity. Qed.

(** Joining proper lines with a newline and splitting again gives them
    back. *)
Lemma splitlines_join (ls : list str) :
  Forall proper_line ls -> splitlines (join [10] ls) = ls.
Proof.
  unfold splitlines. induction ls as [|p rest IH]; intros H; [reflexivity|].
  inversion H as [|? ? [Hne Hnb] Hrest]; subst.
  destruct rest as [|q rest].
  - cbn [join]. rewrite <- (app_nil_r p) at 1.
    rewrite (splitlines_from_app p Hnb), app_nil_r.
    rewrite splitlines_from_end.
    + now rewrite rev_involutive.
    + intros E. apply Hne. apply (f_equal (@rev _)) in E.
      now rewrite rev_involutive in E.
  - rewrite join_cons. rewrite (splitlines_from_app p Hnb), app_nil_r.
    cbn [app]. rewrite splitlines_from_newline, rev_involutive.
    f_equal. now apply IH.
Qed.

Lemma strip_nil : strip [] = [].
Proof. reflexivity. Qed.

Lemma kept_lines_proper (pretty : str) :
  Forall (fun l => proper_line l /\ ~ blank l) (kept_lines pretty).
Proof.
  unfold kept_lines. apply Forall_forall. intros l Hl.
  apply filter_In in Hl. destruct Hl as [Hin Hf].
  apply negb_true_iff, str_eqb_neq in Hf.
  pose proof (splitlines_no_break pretty) as Hnb.
  rewrite Forall_forall in Hnb. repeat split.
  - intros ->. now apply Hf.
  - now apply Hnb.
  - exact Hf.
Qed.

(** What [drop_blank_lines] returns splits into exactly the lines it kept,
    none of which is blank. *)
Lemma drop_blank_lines_lines (pretty : str) :
  splitlines (drop_blank_lines pretty) = kept_lines pretty
  /\ Forall (fun l => ~ blank l) (splitlines (drop_blank_lines pretty)).
Proof.
  assert (E : splitlines (drop_blank_lines pretty) = kept_lines pretty).
  { unfold drop_blank_lines. fold (kept_lines pretty).
    apply splitlines_join.
    eapply Forall_impl; [|apply kept_lines_proper]. now intros l [H _]. }
  split; [exact E|]. rewrite E.
  eapply Forall_impl; [|apply kept_lines_proper]. now intros l [_ H].
Qed.

(** ** 4. The decode step *)

(** With [errors="ignore"] a character-map codec returns, whatever its
    table. *)
Lemma decode_charmap_ignore_returns (table : byte -> option codepoint)
    (contents : bytes) :
  exists s, decode_charmap table Ignore contents = Returned s.
Proof.
  induction contents as [|b t [s IH]]; simpl.
  - now exists [].
  - destruct (table b) as [c|]; rewrite IH; eauto.
Qed.

Lemma latin1_ignore_value (contents : bytes) :
  bytes_decode_latin1_ignore contents = Returned (map Byte.to_N contents).
Proof.
  unfold bytes_decode_latin1_ignore.
  induction contents as [|b t IH]; simpl; [reflexivity|].
  now rewrite IH.
Qed.

Lemma decode_contents_value (contents : bytes) :
  decode_contents contents =
  ret (match utf8_decode (map Byte.to_N contents) with
       | Some s => s
       | None => map Byte.to_N contents
       end).
Proof.
  unfold decode_contents, bytes_decode_utf8, try_except, lift, ret.
  destruct (utf8_decode (map Byte.to_N contents)); [reflexivity|].
  now rewrite latin1_ignore_value.
Qed.

(** ** 5. The handlers, case by case *)

Lemma bind_ret (A B : Type) (a : A) (k : A -> run B) : bind (ret a) k = k a.
Proof. unfold bind, ret. now destruct (k a). Qed.

Lemma bind_return (A B : Type) (r : Response) (k : A -> run B) :
  bind (return_ r) k = return_ r.
Proof. reflexivity. Qed.

Section HandlerFacts.

Context {L : Libraries}.

(** What [# pick source] leaves: no input, a size error, or the text. *)
Lemma pick_source_spec (no_xml : str) (xml_text : option str)
    (xml_file : option UploadFile) :
  pick_source no_xml xml_text xml_file =
  match measured_size xml_text xml_file with
  | None => return_ (JSONResponse (error_body no_xml) 400)
  | Some n =>
      if MAX_XML_BYTES <? n then
        return_ (JSONResponse
                   (error_body (too_large (source_name xml_file) n)) 400)
      else ret (input_text xml_text xml_file)
  end.
Proof.
  unfold pick_source, measured_size, input_text, source_name.
  destruct (named_upload xml_file) as [f|].
  - destruct (MAX_XML_BYTES <? len (file_contents f)); [reflexivity|].
    apply decode_contents_value.
  - destruct xml_text as [text|]; [|reflexivity].
    destruct (MAX_XML_BYTES <? len (str_encode_utf8 text)); reflexivity.
Qed.

Lemma validate_spec (raw : str) :
  validate raw =
  match defused_fromstring (str_encode_utf8 raw) with
  | Returned u => ([Call_defused_fromstring (str_encode_utf8 raw)], Value u)
  | Raised msg =>
      ([Call_defused_fromstring (str_encode_utf8 raw)],
       Return (parse_error_response msg))
  end.
Proof.
  unfold validate, try_except, call, return_.
  destruct (defused_fromstring (str_encode_utf8 raw)); reflexivity.
Qed.

(** [/xml/format], case by case. *)
Lemma xml_format_spec (w : World) (rq : Request) (xml_text : option str)
    (xml_file : option UploadFile) (indent_spaces : Z) :
  xml_format w rq xml_text xml_file indent_spaces =
  match measured_size xml_text xml_file with
  | None => return_ (JSONResponse (error_body (no_xml_message (Format indent_spaces))) 400)
  | Some n =>
      if MAX_XML_BYTES <? n then
        return_ (JSONResponse
                   (error_body (too_large (source_name xml_file) n)) 400)
      else
        let raw := strip (input_text xml_text xml_file) in
        let data := str_encode_utf8 raw in
        let indent := spaces (chosen_indent indent_spaces) in
        match raw with
        | [] => return_ empty_response
        | _ :: _ =>
            match defused_fromstring data with
            | Raised msg =>
                ([Call_defused_fromstring data],
                 Return (parse_error_response msg))
            | Returned _ =>
                match minidom_parseString data with
                | Raised msg =>
                    ([Call_defused_fromstring data;
                      Call_minidom_parseString data],
                     Return (stage_error_response
                               (lit "Failed to pretty-print XML: ") msg))
                | Returned dom =>
                    match toprettyxml dom indent with
                    | Raised msg =>
                        ([Call_defused_fromstring data;
                          Call_minidom_parseString data;
                          Call_toprettyxml indent],
                         Return (stage_error_response
                                   (lit "Failed to pretty-print XML: ") msg))
                    | Returned pretty =>
                        ([Call_defused_fromstring data;
                          Call_minidom_parseString data;
                          Call_toprettyxml indent],
                         Return (pretty_response (drop_blank_lines pretty)))
                    end
                end
            end
        end
  end.
Proof.
  unfold xml_format. rewrite pick_source_spec.
  destruct (measured_size xml_text xml_file) as [n|]; [|reflexivity].
  destruct (MAX_XML_BYTES <? n); [reflexivity|].
  rewrite bind_ret. cbv zeta.
  destruct (strip (input_text xml_text xml_file)) as [|c raw] eqn:E;
    [reflexivity|].
  unfold reject_empty. rewrite bind_ret, validate_spec.
  destruct (defused_fromstring (str_encode_utf8 (c :: raw))) as [u|msg];
    [|reflexivity].
  cbn [bind app]. unfold call, try_except, bind, ret, return_.
  destruct (minidom_parseString (str_encode_utf8 (c :: raw))) as [dom|msg];
    [|reflexivity].
  destruct (toprettyxml dom (spaces (chosen_indent indent_spaces)));
    reflexivity.
Qed.

(** [/xml/minify], case by case. *)
Lemma xml_minify_spec (w : World) (rq : Request) (xml_text : option str)
    (xml_file : option UploadFile) :
  xml_minify w rq xml_text xml_file =
  match measured_size xml_text xml_file with
  | None => return_ (JSONResponse (error_body (no_xml_message Minify)) 400)
  | Some n =>
      if MAX_XML_BYTES <? n then
        return_ (JSONResponse
                   (error_body (too_large (source_name xml_file) n)) 400)
      else
        let raw := strip (input_text xml_text xml_file) in
        let data := str_encode_utf8 raw in
        match raw with
        | [] => return_ empty_response
        | _ :: _ =>
            match defused_fromstring data with
            | Raised msg =>
                ([Call_defused_fromstring data],
                 Return (parse_error_response msg))
            | Returned _ =>
                match ET_fromstring raw with
                | Raised msg =>
                    ([Call_defused_fromstring data; Call_ET_fromstring raw],
                     Return (stage_error_response
                               (lit "XML minify error: ") msg))
                | Returned tree =>
                    match ET_tostring tree with
                    | Raised msg =>
                        ([Call_defused_fromstring data;
                          Call_ET_fromstring raw; Call_ET_tostring],
                         Return (stage_error_response
                                   (lit "XML minify error: ") msg))
                    | Returned encoded =>
                        ([Call_defused_fromstring data;
                          Call_ET_fromstring raw; Call_ET_tostring],
                         Return
                           match bytes_decode_utf8 encoded with
                           | Returned compact => pretty_response compact
                           | Raised msg =>
                               stage_error_response
                                 (lit "XML minify error: ") msg
                           end)
                    end
                end
            end
        end
  end.
Proof.
  unfold xml_minify. rewrite pick_source_spec.
  destruct (measured_size xml_text xml_file) as [n|]; [|reflexivity].
  destruct (MAX_XML_BYTES <? n); [reflexivity|].
  rewrite bind_ret. cbv zeta.
  destruct (strip (input_text xml_text xml_file)) as [|c raw] eqn:E;
    [reflexivity|].
  unfold reject_empty. rewrite bind_ret, validate_spec.
  destruct (defused_fromstring (str_encode_utf8 (c :: raw))) as [u|msg];
    [|reflexivity].
  cbn [bind app]. unfold call, try_except, bind, ret, return_, lift.
  destruct (ET_fromstring (c :: raw)) as [tree|msg]; [|reflexivity].
  destruct (ET_tostring tree) as [encoded|msg]; [|reflexivity].
  destruct (bytes_decode_utf8 encoded); reflexivity.
Qed.

(** [/xml/convert], case by case. *)
Lemma xml_convert_spec (w : World) (rq : Request) (xml_text : option str)
    (xml_file : option UploadFile) :
  xml_convert w rq xml_text xml_file =
  match measured_size xml_text xml_file with
  | None => return_ (JSONResponse (error_body (no_xml_message Convert)) 400)
  | Some n =>
      if MAX_XML_BYTES <? n then
        return_ (JSONResponse
                   (error_body (too_large (source_name xml_file) n)) 400)
      else
        let raw := strip (input_text xml_text xml_file) in
        let data := str_encode_utf8 raw in
        match raw with
        | [] => return_ empty_response
        | _ :: _ =>
            match defused_fromstring data with
            | Raised msg =>
                ([Call_defused_fromstring data],
                 Return (parse_error_response msg))
            | Returned _ =>
                match xmltodict_parse raw with
                | Raised msg =>
                    ([Call_defused_fromstring data;
                      Call_xmltodict_parse raw],
                     Return (stage_error_response
                               (lit "XML->JSON parse error: ") msg))
                | Returned parsed =>
                    ([Call_defused_fromstring data;
                      Call_xmltodict_parse raw],
                     Return (JSONResponse parsed 200))
                end
            end
        end
  end.
Proof.
  unfold xml_convert. rewrite pick_source_spec.
  destruct (measured_size xml_text xml_file) as [n|]; [|reflexivity].
  destruct (MAX_XML_BYTES <? n); [reflexivity|].
  rewrite bind_ret. cbv zeta.
  destruct (strip (input_text xml_text xml_file)) as [|c raw] eqn:E;
    [reflexivity|].
  unfold reject_empty. rewrite bind_ret, validate_spec.
  destruct (defused_fromstring (str_encode_utf8 (c :: raw))) as [u|msg];
    [|reflexivity].
  cbn [bind app]. unfold call, try_except, bind, ret, return_.
  destruct (xmltodict_parse (c :: raw)); reflexivity.
Qed.

End HandlerFacts.

(** ** 6. The decode step never raises (C8) *)

(** C8.  For every uploaded byte sequence the decode step returns a string
    and never raises: the string is the UTF-8 decoding when the bytes are
    valid UTF-8, and otherwise the Latin-1 decoding with [errors="ignore"],
    which returns for every input (each byte becomes the character of the
    same number). *)
Theorem decode_step_never_raises (contents : bytes) :
  exists raw : str,
    decode_contents contents = ret raw
    /\ (forall s : str, bytes_decode_utf8 contents = Returned s -> raw = s)
    /\ (forall msg : str,
          bytes_decode_utf8 contents = Raised msg ->
          bytes_decode_latin1_ignore contents = Returned raw
          /\ raw = map Byte.to_N contents).
Proof.
  eexists. split; [apply decode_contents_value|].
  unfold bytes_decode_utf8.
  destruct (utf8_decode (map Byte.to_N contents)) as [s|]; split.
  - intros s' H. now injection H.
  - discriminate.
  - discriminate.
  - intros msg _. split; [apply latin1_ignore_value | reflexivity].
Qed.

(** ** 7. Responses and their shapes *)



Lemma source_name_cases (xml_file : option UploadFile) :
  source_name xml_file = lit "File" \/ source_name xml_file = lit "Text".
Proof. unfold source_name. destruct (named_upload xml_file); auto. Qed.

Lemma size_response_is_size_error (xml_file : option UploadFile) (n : N) :
  is_size_error
    (JSONResponse (error_body (too_large (source_name xml_file) n)) 400) n.
Proof.
  split; [reflexivity|]. simpl.
  destruct (source_name_cases xml_file) as [-> | ->]; auto.
Qed.

(** The first two characters of a size error's message are [Fi] or [Te]. *)
Lemma size_error_head (r : Response) (k : N) :
  is_size_error r k ->
  status_code r = 400%Z
  /\ exists m, content r = error_body m
               /\ (firstn 2 m = [70; 105] \/ firstn 2 m = [84; 101]).
Proof.
  intros [Hs [Hc | Hc]]; (split; [exact Hs|]); eexists; (split; [exact Hc|]).
  - now left.
  - now right.
Qed.

Lemma error_body_inj (a b : str) : error_body a = error_body b -> a = b.
Proof. unfold error_body. intros H. now injection H. Qed.

Ltac not_size_error :=
  let H := fresh in
  intros k H; apply size_error_head in H;
  destruct H as [Hs (m & Hc & Hm)]; simpl in Hs, Hc;
  try discriminate Hs;
  try (apply error_body_inj in Hc; subst m;
       destruct Hm as [Hm | Hm]; discriminate Hm);
  try discriminate Hc.

Lemma empty_not_size_error : forall k, ~ is_size_error empty_response k.
Proof. not_size_error. Qed.

Lemma no_xml_not_size_error (e : endpoint) :
  forall k, ~ is_size_error (JSONResponse (error_body (no_xml_message e)) 400) k.
Proof. destruct e; not_size_error. Qed.

Lemma pretty_not_size_error (s : str) :
  forall k, ~ is_size_error (pretty_response s) k.
Proof. not_size_error. Qed.

Lemma ok_not_size_error (j : json) :
  forall k, ~ is_size_error (JSONResponse j 200) k.
Proof. not_size_error. Qed.

Lemma parse_error_not_size_error {L : Libraries} (msg : str) :
  forall k, ~ is_size_error (parse_error_response msg) k.
Proof. not_size_error. Qed.

Lemma stage_error_not_size_error (stage : string) (msg : str) :
  stage = "Failed to pretty-print XML: "%string
  \/ stage = "XML minify error: "%string
  \/ stage = "XML->JSON parse error: "%string ->
  forall k, ~ is_size_error (stage_error_response (lit stage) msg) k.
Proof. intros [-> | [-> | ->]]; not_size_error. Qed.

(** ** 8. The size limit (C5) *)

Section SizeLimit.

Context {L : Libraries}.

(** A handler answers an oversized input before anything else. *)
Lemma oversized_response (e : endpoint) (w : World) (rq : Request)
    (xml_text : option str) (xml_file : option UploadFile) (n : N) :
  measured_size xml_text xml_file = Some n -> MAX_XML_BYTES < n ->
  handle e w rq xml_text xml_file =
  return_ (JSONResponse (error_body (too_large (source_name xml_file) n)) 400).
Proof.
  intros Hm Hn. apply N.ltb_lt in Hn.
  destruct e; cbn [handle];
    [rewrite xml_format_spec | rewrite xml_minify_spec
     | rewrite xml_convert_spec];
    rewrite Hm, Hn; reflexivity.
Qed.

(** Within the limit no response is a size error. *)
Lemma within_limit_no_size_error (e : endpoint) (w : World) (rq : Request)
    (xml_text : option str) (xml_file : option UploadFile) :
  (forall n, measured_size xml_text xml_file = Some n -> n <= MAX_XML_BYTES) ->
  forall r k,
    serve (handle e w rq xml_text xml_file) = Responded r ->
    ~ is_size_error r k.
Proof.
  intros Hle r k.
  assert (Hno : forall n, measured_size xml_text xml_file = Some n ->
                          (MAX_XML_BYTES <? n) = false).
  { intros n Hn. apply N.ltb_ge. now apply Hle. }
  destruct e; cbn [handle];
    [rewrite xml_format_spec | rewrite xml_minify_spec
     | rewrite xml_convert_spec];
    (destruct (measured_size xml_text xml_file) as [n|];
     [rewrite (Hno n eq_refl); cbv zeta
     | intros H; injection H as <-;
       first [exact (no_xml_not_size_error (Format 0) k)
             | exact (no_xml_not_size_error Minify k)]]);
    (destruct (strip (input_text xml_text xml_file)) as [|c raw];
     [intros H; injection H as <-; apply empty_not_size_error|]);
    (destruct (defused_fromstring (str_encode_utf8 (c :: raw))) as [u|msg];
     [|intros H; injection H as <-; apply parse_error_not_size_error]).
  - destruct (minidom_parseString (str_encode_utf8 (c :: raw))) as [dom|msg];
      [destruct (toprettyxml dom (spaces (chosen_indent indent_spaces)))|];
      intros H; injection H as <-;
      first [apply pretty_not_size_error
            | apply (stage_error_not_size_error "Failed to pretty-print XML: ");
              auto].
  - destruct (ET_fromstring (c :: raw)) as [tree|msg];
      [destruct (ET_tostring tree) as [encoded|msg];
       [destruct (bytes_decode_utf8 encoded)|]|];
      intros H; injection H as <-;
      first [apply pretty_not_size_error
            | apply (stage_error_not_size_error "XML minify error: "); auto].
  - destruct (xmltodict_parse (c :: raw)) as [parsed|msg];
      intros H; injection H as <-;
      first [apply ok_not_size_error
            | apply (stage_error_not_size_error "XML->JSON parse error: ");
              auto].
Qed.


End SizeLimit.

(** ** 9. Empty input (C7) *)

Section EmptyInput.

Context {L : Libraries}.

Lemma blank_within_limit (e : endpoint) (w : World) (rq : Request)
    (xml_text : option str) (xml_file : option UploadFile) (n : N) :
  measured_size xml_text xml_file = Some n -> n <= MAX_XML_BYTES ->
  strip (input_text xml_text xml_file) = [] ->
  handle e w rq xml_text xml_file = return_ empty_response.
Proof.
  intros Hm Hn Hb. apply N.ltb_ge in Hn.
  destruct e; cbn [handle];
    [rewrite xml_format_spec | rewrite xml_minify_spec
     | rewrite xml_convert_spec];
    rewrite Hm, Hn; cbv zeta; rewrite Hb; reflexivity.
Qed.

(** Every library call of a handler works on the stripped input, which is
    not empty, or on a document parsed from it. *)
Lemma calls_on_stripped_input (e : endpoint) (w : World) (rq : Request)
    (xml_text : option str) (xml_file : option UploadFile) (c : LibCall) :
  In c (calls_of (handle e w rq xml_text xml_file)) ->
  on_parsed_document c
  \/ (text_given c (strip (input_text xml_text xml_file))
      /\ strip (input_text xml_text xml_file) <> []).
Proof.
  unfold text_given, on_parsed_document.
  destruct e; cbn [handle];
    [rewrite xml_format_spec | rewrite xml_minify_spec
     | rewrite xml_convert_spec];
    (destruct (measured_size xml_text xml_file) as [n|]; [|intros []]);
    (destruct (MAX_XML_BYTES <? n); [intros []|]); cbv zeta;
    (destruct (strip (input_text xml_text xml_file)) as [|c0 raw];
     [intros []|]);
    destruct (defused_fromstring (str_encode_utf8 (c0 :: raw))) as [u|msg].
  - destruct (minidom_parseString (str_encode_utf8 (c0 :: raw))) as [dom|msg];
      [destruct (toprettyxml dom (spaces (chosen_indent indent_spaces)))|];
      cbn [calls_of fst In]; intuition (subst; eauto; try discriminate).
  - cbn [calls_of fst In]; intuition (subst; eauto; try discriminate).
  - destruct (ET_fromstring (c0 :: raw)) as [tree|msg];
      [destruct (ET_tostring tree) as [encoded|msg]|];
      cbn [calls_of fst In]; intuition (subst; eauto; try discriminate).
  - cbn [calls_of fst In]; intuition (subst; eauto; try discriminate).
  - destruct (xmltodict_parse (c0 :: raw)) as [parsed|msg];
      cbn [calls_of fst In]; intuition (subst; eauto; try discriminate).
  - cbn [calls_of fst In]; intuition (subst; eauto; try discriminate).
Qed.

(** C7, amended.  For every input within the size limit that is empty or
    consists only of white space after decoding, every endpoint returns
    HTTP 400 with the error message "Empty XML content." and calls no
    library; and the text any endpoint hands to a library is the stripped
    input, which is never empty and which stripping leaves unchanged.  (An
    input over the limit gets the size error instead, whatever it holds.) *)
Theorem blank_input_rejected :
  (forall (e : endpoint) (w : World) (rq : Request) (xml_text : option str)
          (xml_file : option UploadFile) (n : N),
      measured_size xml_text xml_file = Some n -> n <= MAX_XML_BYTES ->
      forallb isspace (input_text xml_text xml_file) = true ->
      serve (handle e w rq xml_text xml_file)
      = Responded (JSONResponse (error_body (lit "Empty XML content.")) 400)
      /\ calls_of (handle e w rq xml_text xml_file) = [])
  /\ (forall (e : endpoint) (w : World) (rq : Request) (xml_text : option str)
             (xml_file : option UploadFile) (c : LibCall),
         In c (calls_of (handle e w rq xml_text xml_file)) ->
         on_parsed_document c
         \/ exists s : str,
              text_given c s /\ s = strip (input_text xml_text xml_file)
              /\ s <> [] /\ strip s = s).
Proof.
  split.
  - intros e w rq xml_text xml_file n Hm Hn Hb.
    rewrite (blank_within_limit e w rq _ _ n Hm Hn (strip_all_space _ Hb)).
    split; reflexivity.
  - intros e w rq xml_text xml_file c Hc.
    destruct (calls_on_stripped_input e w rq _ _ c Hc) as [H | [H1 H2]];
      [now left|right].
    eexists. repeat split; eauto. apply strip_idem.
Qed.

End EmptyInput.

(** A request within the limit whose upload holds white space only: the
    hypotheses of C7 hold of it. *)
Lemma blank_input_rejected_example :
  serve (handle (L := reference_libraries) Minify new_year plain_request None
           (Some {| filename := Some (lit "a.xml");
                    file_contents := [x20; x0a; x09]%byte |}))
  = Responded (JSONResponse (error_body (lit "Empty XML content.")) 400)
  /\ calls_of (handle (L := reference_libraries) Minify new_year plain_request
                 None
                 (Some {| filename := Some (lit "a.xml");
                          file_contents := [x20; x0a; x09]%byte |})) = [].
Proof.
  apply (proj1 (blank_input_rejected (L := reference_libraries)))
    with (n := 3); [reflexivity | vm_compute; discriminate | reflexivity].
Defined.

(** [copies], one character at a time. *)
Lemma copies_succ (n : N) (c : codepoint) :
  copies (N.succ n) c = c :: copies n c.
Proof. unfold copies. apply N.iter_succ. Qed.

Lemma copies_length (n : N) (c : codepoint) :
  length (copies n c) = N.to_nat n.
Proof.
  induction n as [|n IH] using N.peano_ind; [reflexivity|].
  rewrite copies_succ, N2Nat.inj_succ. simpl. now rewrite IH.
Qed.

Lemma copies_all_space (n : N) : forallb isspace (copies n 32) = true.
Proof.
  induction n as [|n IH] using N.peano_ind; [reflexivity|].
  rewrite copies_succ. simpl forallb. now rewrite IH.
Qed.

(** A space is one byte of UTF-8. *)
Lemma copies_encoded_size (n : N) :
  len (str_encode_utf8 (copies n 32)) = n.
Proof.
  rewrite len_length.
  assert (H : length (str_encode_utf8 (copies n 32)) = N.to_nat n).
  { induction n as [|n IH] using N.peano_ind; [reflexivity|].
    rewrite copies_succ, N2Nat.inj_succ.
    change (str_encode_utf8 (32 :: copies n 32))
      with (x20 :: str_encode_utf8 (copies n 32)).
    simpl length. now rewrite IH. }
  rewrite H. apply N2Nat.id.
Qed.

(** A million and one spaces are all white space, and the endpoints
    answer them with the size error, not with "Empty XML content.". *)
Lemma oversized_blank_input_gets_size_error :
  forallb isspace (copies 1000001 32) = true
  /\ serve (handle (L := reference_libraries) (Format 4) new_year
              plain_request (Some (copies 1000001 32)) None)
     = Responded
         (JSONResponse
            (error_body
               (lit "Text too large (1000001 bytes). Max 1000000 bytes."))
            400)
  /\ serve (handle (L := reference_libraries) Minify new_year
              plain_request (Some (copies 1000001 32)) None)
     = Responded
         (JSONResponse
            (error_body
               (lit "Text too large (1000001 bytes). Max 1000000 bytes."))
            400)
  /\ serve (handle (L := reference_libraries) Convert new_year
              plain_request (Some (copies 1000001 32)) None)
     = Responded
         (JSONResponse
            (error_body
               (lit "Text too large (1000001 bytes). Max 1000000 bytes."))
            400)
  /\ JSONResponse
       (error_body (lit "Text too large (1000001 bytes). Max 1000000 bytes."))
       400
     <> JSONResponse (error_body (lit "Empty XML content.")) 400.
Proof.
  assert (H : forall e : endpoint,
             serve (handle (L := reference_libraries) e new_year plain_request
                      (Some (copies 1000001 32)) None)
             = Responded
                 (JSONResponse
                    (error_body
                       (lit "Text too large (1000001 bytes). Max 1000000 bytes."))
                    400)).
  { intros e.
    rewrite (oversized_response (L := reference_libraries) e new_year
               plain_request (Some (copies 1000001 32)) None 1000001).
    - reflexivity.
    - unfold measured_size, named_upload. now rewrite copies_encoded_size.
    - reflexivity. }
  split; [apply copies_all_space|].
  split; [apply H|]. split; [apply H|]. split; [apply H|]. discriminate.
Qed.

(** ** 10. One response, success or error (C9) *)




Section OneResponse.

Context {L : Libraries}.



End OneResponse.


(** ** 11. Determinism (C10) *)

Section Determinism.

Context {L : Libraries}.


End Determinism.

(** The clock does show in [/api/time]: the XML handlers differ from it. *)
Lemma api_time_reads_the_clock :
  api_time {| utcnow_isoformat := lit "2024-01-01T00:00:00" |}
  <> api_time {| utcnow_isoformat := lit "2024-01-01T00:00:01" |}.
Proof. discriminate. Qed.

(** ** 12. Pretty-printing (C3) *)

(** The width the handler passes on: the requested one when it is 2, 3 or
    4, and 4 otherwise. *)
Lemma chosen_indent_cases (i : Z) :
  ((i = 2 \/ i = 3 \/ i = 4) /\ chosen_indent i = i)%Z
  \/ ((i <> 2 /\ i <> 3 /\ i <> 4) /\ chosen_indent i = 4)%Z.
Proof.
  unfold chosen_indent.
  destruct (Z.eqb_spec i 2) as [->|H2]; [left; auto|].
  destruct (Z.eqb_spec i 3) as [->|H3]; [left; auto|].
  destruct (Z.eqb_spec i 4) as [->|H4]; [left; auto|].
  right. auto.
Qed.


Section PrettyPrint.

Context {L : Libraries}.



End PrettyPrint.


(** What the reference libraries print for that request. *)
Lemma format_example_output :
  serve (xml_format (L := reference_libraries) new_year plain_request
           (Some (lit "<a><b>x</b><c/></a>")) None 7)
  = Responded
      (JSONResponse
         (JDict
            [(lit "pretty",
              JStr (lit "<?xml version=" ++ [34] ++ lit "1.0" ++ [34]
                    ++ lit " ?>" ++ [10]
                    ++ lit "<a>" ++ [10]
                    ++ lit "    <b>x</b>" ++ [10]
                    ++ lit "    <c/>" ++ [10]
                    ++ lit "</a>"))])
         200).
Proof. vm_compute. reflexivity. Qed.


(** ** 13. The pattern [line\s+(\d+)] *)

Lemma span_app (p : codepoint -> bool) (s : str) :
  fst (span p s) ++ snd (span p s) = s.
Proof.
  induction s as [|c t IH]; [reflexivity|]. simpl.
  destruct (p c); [|reflexivity].
  destruct (span p t) as [a b]. simpl in *. now rewrite IH.
Qed.

Lemma span_all (p : codepoint -> bool) (s : str) :
  Forall (fun c => p c = true) (fst (span p s)).
Proof.
  induction s as [|c t IH]; [constructor|]. simpl.
  destruct (p c) eqn:E; [|constructor].
  destruct (span p t) as [a b]. simpl in *. now constructor.
Qed.

Lemma span_stop (p : codepoint -> bool) (s : str) :
  match snd (span p s) with [] => True | c :: _ => p c = false end.
Proof.
  induction s as [|c t IH]; [exact I|]. simpl.
  destruct (p c) eqn:E; [|exact E].
  destruct (span p t) as [a b]. exact IH.
Qed.

(** A run of [p]-characters followed by something else is what [span]
    splits off. *)
Lemma span_exact (p : codepoint -> bool) (a b : str) :
  Forall (fun c => p c = true) a ->
  match b with [] => True | c :: _ => p c = false end ->
  span p (a ++ b) = (a, b).
Proof.
  intros Ha Hb. induction Ha as [|c a Hc Ha IH]; simpl.
  - destruct b as [|c b]; [reflexivity|]. simpl. now rewrite Hb.
  - now rewrite Hc, IH.
Qed.

Lemma isspace_small (c : codepoint) : isspace c = true -> c <= 0x3000.
Proof.
  unfold isspace. intros H.
  repeat (apply orb_true_iff in H; destruct H as [H|H]);
    repeat (apply andb_true_iff in H; destruct H as [H ?]);
    repeat match goal with
           | X : (_ <=? _) = true |- _ => apply N.leb_le in X
           | X : (_ =? _) = true |- _ => apply N.eqb_eq in X
           end; lia.
Qed.

(** The numbers below [m], largest first. *)
Lemma below_in (m c : N) :
  c < m -> In c (N.peano_rect (fun _ => list N) [] (fun n l => n :: l) m).
Proof.
  induction m as [|m IH] using N.peano_ind; [lia|].
  rewrite N.peano_rect_succ. intros H.
  destruct (N.eq_dec c m) as [->|Hne]; [now left|].
  right. apply IH. lia.
Qed.

(** No white space character is a decimal digit. *)
Lemma space_not_decimal (c : codepoint) :
  isspace c = true -> isdecimal c = false.
Proof.
  intros H. pose proof (isspace_small c H) as Hc.
  assert (T : forallb (fun c => if isspace c then negb (isdecimal c)
                               else true)
                (N.peano_rect (fun _ => list N) [] (fun n l => n :: l) 12289)
              = true)
    by (vm_compute; reflexivity).
  rewrite forallb_forall in T.
  assert (Hin : In c (N.peano_rect (fun _ => list N) []
                        (fun n l => n :: l) 12289))
    by (apply below_in; lia).
  specialize (T c Hin). cbv beta in T. rewrite H in T.
  now apply negb_true_iff in T.
Qed.

Lemma decimal_not_space (c : codepoint) :
  isdecimal c = true -> isspace c = false.
Proof.
  intros H. destruct (isspace c) eqn:E; [|reflexivity].
  apply space_not_decimal in E. congruence.
Qed.

(** The white space [int] skips is white space of [str.isspace]. *)
Lemma int_isspace_isspace (c : codepoint) :
  int_isspace c = true -> isspace c = true.
Proof.
  unfold int_isspace. intros H.
  apply orb_true_iff in H. destruct H as [H|H];
    [apply orb_true_iff in H; destruct H as [H|H]|].
  - unfold isspace. now rewrite H.
  - apply N.eqb_eq in H. now subst.
  - now apply andb_true_iff in H.
Qed.

Lemma decimal_not_int_space (c : codepoint) :
  isdecimal c = true -> int_isspace c = false.
Proof.
  intros H. destruct (int_isspace c) eqn:E; [|reflexivity].
  apply int_isspace_isspace, space_not_decimal in E. congruence.
Qed.

(** A match at the start of [s] is a match of the pattern after any
    prefix. *)
Lemma match_line_here_sound (s ds : str) :
  match_line_here s = Some ds ->
  forall pre, matches_at (pre ++ s) pre ds.
Proof.
  unfold match_line_here.
  destruct s as [|c1 [|c2 [|c3 [|c4 rest]]]]; try discriminate.
  destruct (ci_l c1 && ci_i c2 && ci_n c3 && ci_e c4) eqn:W;
    [|discriminate].
  pose proof (span_app isspace rest) as A1.
  pose proof (span_all isspace rest) as F1.
  destruct (span isspace rest) as [ws after]. simpl in A1, F1.
  destruct ws as [|w ws]; [discriminate|].
  pose proof (span_app isdecimal after) as A2.
  pose proof (span_all isdecimal after) as F2.
  pose proof (span_stop isdecimal after) as S2.
  destruct (span isdecimal after) as [dg post]. simpl in A2, F2, S2.
  destruct dg as [|d dg]; [discriminate|].
  intros [= <-] pre.
  exists [c1; c2; c3; c4], (w :: ws), post.
  repeat split; try assumption; try discriminate.
  rewrite A2, A1. reflexivity.
Qed.

(** Conversely, a match of the pattern after [pre] is the match found at
    the start of what follows [pre]. *)
Lemma match_line_here_complete (s pre ds : str) :
  matches_at (pre ++ s) pre ds -> match_line_here s = Some ds.
Proof.
  intros (word & ws & post & E & W & Hws & Fws & Hds & Fds & Hpost).
  apply app_inv_head in E. subst s.
  destruct word as [|c1 [|c2 [|c3 [|c4 [|]]]]]; try contradiction.
  simpl in W. cbn [app match_line_here]. rewrite W.
  assert (S1 : span isspace (ws ++ ds ++ post) = (ws, ds ++ post)).
  { apply span_exact; [exact Fws|].
    destruct ds as [|d ds]; [contradiction|]. simpl.
    inversion Fds; subst. now apply decimal_not_space. }
  rewrite S1. destruct ws as [|w ws]; [contradiction|].
  rewrite (span_exact isdecimal ds post Fds Hpost).
  destruct ds; [contradiction|reflexivity].
Qed.

(** What a match captures: a run of decimal digits, not empty. *)
Lemma match_line_here_digits (s ds : str) :
  match_line_here s = Some ds ->
  ds <> [] /\ Forall (fun c => isdecimal c = true) ds.
Proof.
  intros H.
  destruct (match_line_here_sound s ds H [])
    as (word & ws & post & _ & _ & _ & _ & Hds & Fds & _).
  auto.
Qed.

(** [re.search] returns the match at the first position that has one. *)
Lemma re_search_line_some (s ds : str) :
  re_search_line s = Some ds ->
  exists pre suf,
    s = pre ++ suf
    /\ match_line_here suf = Some ds
    /\ forall pre' suf',
         s = pre' ++ suf' -> (length pre' < length pre)%nat ->
         match_line_here suf' = None.
Proof.
  induction s as [|c t IH].
  - simpl. discriminate.
  - cbn [re_search_line].
    destruct (match_line_here (c :: t)) as [g|] eqn:M.
    + intros [= <-]. exists [], (c :: t).
      repeat split; [exact M|]. intros pre' suf' _ Hlt. simpl in Hlt. lia.
    + intros H. destruct (IH H) as (pre & suf & E & Hm & Hmin).
      exists (c :: pre), suf. repeat split.
      * simpl. now rewrite E.
      * exact Hm.
      * intros pre' suf' E' Hlt. destruct pre' as [|c' pre'].
        -- simpl in E'. now subst suf'.
        -- simpl in E'. injection E' as _ E'.
           apply (Hmin pre' suf' E'). simpl in Hlt. lia.
Qed.

Lemma re_search_line_none (s : str) :
  re_search_line s = None ->
  forall pre suf, s = pre ++ suf -> match_line_here suf = None.
Proof.
  induction s as [|c t IH]; intros H pre suf E.
  - symmetry in E. apply app_eq_nil in E. destruct E as [_ ->]. reflexivity.
  - cbn [re_search_line] in H.
    destruct (match_line_here (c :: t)) as [g|] eqn:M; [discriminate|].
    destruct pre as [|c' pre].
    + simpl in E. now subst suf.
    + simpl in E. injection E as _ E. now apply (IH H pre suf).
Qed.

(** What follows the prefix of a match. *)
Lemma matches_at_suffix (msg pre ds : str) :
  matches_at msg pre ds ->
  exists suf, msg = pre ++ suf /\ match_line_here suf = Some ds.
Proof.
  intros H. pose proof H as (word & ws & post & E & _).
  exists (word ++ ws ++ ds ++ post). split; [exact E|].
  apply (match_line_here_complete _ pre). now rewrite <- E.
Qed.

Lemma re_search_line_first_match (msg ds : str) :
  re_search_line msg = Some ds -> first_match msg ds.
Proof.
  intros H. destruct (re_search_line_some msg ds H)
    as (pre & suf & E & Hm & Hmin).
  exists pre. split.
  - rewrite E. now apply match_line_here_sound.
  - intros pre' ds' H'.
    destruct (matches_at_suffix msg pre' ds' H') as (suf' & E' & Hm').
    destruct (Nat.le_gt_cases (length pre) (length pre')) as [Hle|Hlt];
      [exact Hle|].
    rewrite (Hmin pre' suf' E' Hlt) in Hm'. discriminate.
Qed.

Lemma re_search_line_no_match (msg : str) :
  re_search_line msg = None -> no_match msg.
Proof.
  intros H pre ds H'.
  destruct (matches_at_suffix msg pre ds H') as (suf & E & Hm).
  rewrite (re_search_line_none msg H pre suf E) in Hm. discriminate.
Qed.

Lemma app_same_length (A : Type) (a b c d : list A) :
  a ++ b = c ++ d -> length a = length c -> a = c /\ b = d.
Proof.
  revert c. induction a as [|x a IH]; intros [|y c] E Hl;
    try discriminate Hl.
  - now split.
  - simpl in E. injection E as -> E. simpl in Hl.
    destruct (IH c E) as [-> ->]; [lia|]. now split.
Qed.

(** The first match captures one run of digits, whatever way it is found. *)
Lemma first_match_unique (msg d1 d2 : str) :
  first_match msg d1 -> first_match msg d2 -> d1 = d2.
Proof.
  intros (p1 & M1 & Min1) (p2 & M2 & Min2).
  pose proof (Min1 p2 d2 M2) as L1. pose proof (Min2 p1 d1 M1) as L2.
  destruct (matches_at_suffix msg p1 d1 M1) as (s1 & E1 & H1).
  destruct (matches_at_suffix msg p2 d2 M2) as (s2 & E2 & H2).
  assert (E : p1 ++ s1 = p2 ++ s2) by congruence.
  apply app_same_length in E; [|lia]. destruct E as [_ ->].
  congruence.
Qed.

(** ** 14. [int] on a run of digits *)

Lemma drop_while_head (p : codepoint -> bool) (s : str) :
  match s with [] => True | c :: _ => p c = false end ->
  drop_while p s = s.
Proof. destruct s as [|c t]; [reflexivity|]. simpl. now intros ->. Qed.

Lemma drop_while_end_last (p : codepoint -> bool) (s : str) :
  Forall (fun c => p c = false) s -> drop_while_end p s = s.
Proof.
  intros H. unfold drop_while_end.
  rewrite drop_while_head; [apply rev_involutive|].
  apply Forall_rev in H. destruct (rev s) as [|c t]; [exact I|].
  now inversion H.
Qed.

(** The value of a decimal digit, 0 for any other character. *)
Lemma decimal_value_some (c : codepoint) :
  isdecimal c = true ->
  decimal_value c
  = Some (match decimal_value c with Some d => d | None => 0 end).
Proof.
  unfold isdecimal. destruct (decimal_value c); [reflexivity|discriminate].
Qed.

Lemma decimal_not_underscore (c : codepoint) :
  isdecimal c = true -> (c =? 95) = false.
Proof.
  intros H. destruct (N.eqb_spec c 95) as [->|]; [|reflexivity].
  vm_compute in H. discriminate.
Qed.

(** A run of digits is a literal, with the values of its digits. *)
Lemma int_digits_run (ds : str) (after_digit : bool) :
  Forall (fun c => isdecimal c = true) ds ->
  ds <> [] \/ after_digit = true ->
  int_digits after_digit ds
  = Some (map (fun c => match decimal_value c with
                        | Some d => d
                        | None => 0
                        end) ds).
Proof.
  intros H. revert after_digit.
  induction H as [|c t Hc Ht IH]; intros after_digit Hne.
  - destruct Hne as [Hne | ->]; [contradiction|reflexivity].
  - cbn [int_digits map]. rewrite (decimal_not_underscore c Hc).
    rewrite (decimal_value_some c Hc) at 1.
    rewrite (IH true); [reflexivity|now right].
Qed.

(** A string that starts with a digit carries no sign. *)
Lemma unsigned_body (s : str) :
  match s with [] => True | c :: _ => isdecimal c = true end ->
  match s with
  | 45 :: t => (true, t)
  | 43 :: t => (false, t)
  | _ => (false, s)
  end = (false, s).
Proof.
  destruct s as [|c t]; [reflexivity|]. intros H.
  destruct (N.eqb_spec c 45) as [->|H45];
    [vm_compute in H; discriminate|].
  destruct (N.eqb_spec c 43) as [->|H43];
    [vm_compute in H; discriminate|].
  clear H. destruct c as [|p]; [reflexivity|].
  do 6 (destruct p as [p|p|]; try reflexivity);
    solve [exfalso; apply H45; reflexivity
          | exfalso; apply H43; reflexivity].
Qed.

(** [int] on a run of decimal digits: the number they denote, unless the
    run is longer than the interpreter converts. *)
Lemma py_int_digits (max_str_digits : N) (ds : str) :
  ds <> [] -> Forall (fun c => isdecimal c = true) ds ->
  py_int max_str_digits ds
  = if within_limit max_str_digits ds then Returned (number_of ds)
    else Raised (lit "Exceeds the limit for integer string conversion").
Proof.
  intros Hne Hds. unfold py_int.
  assert (Hsp : Forall (fun c => int_isspace c = false) ds).
  { eapply Forall_impl; [|exact Hds]. apply decimal_not_int_space. }
  rewrite (drop_while_head int_isspace ds).
  2:{ destruct ds as [|c t]; [exact I|]. now inversion Hsp. }
  rewrite (drop_while_end_last int_isspace ds Hsp).
  rewrite unsigned_body.
  2:{ destruct ds as [|c t]; [exact I|]. now inversion Hds. }
  rewrite (int_digits_run ds false Hds (or_introl Hne)).
  unfold within_limit, number_of.
  rewrite !len_length, length_map.
  destruct ((STR_DIGITS_CHECK_THRESHOLD <? N.of_nat (length ds))
            && (0 <? max_str_digits)
            && (max_str_digits <? N.of_nat (length ds))); reflexivity.
Qed.

(** ** 15. Malformed input (C6) *)

Section ParseErrors.

Context {L : Libraries}.

(** [_extract_error_line] in terms of the search and the conversion. *)
Lemma extract_error_line_spec (msg : str) :
  _extract_error_line msg
  = match re_search_line msg with
    | Some ds =>
        if within_limit int_max_str_digits ds then Some (number_of ds)
        else None
    | None => None
    end.
Proof.
  unfold _extract_error_line. destruct msg as [|c msg]; [reflexivity|].
  destruct (re_search_line (c :: msg)) as [ds|] eqn:E; [|reflexivity].
  destruct (re_search_line_some _ _ E) as (pre & suf & _ & Hm & _).
  destruct (match_line_here_digits suf ds Hm) as [Hne Hds].
  rewrite (py_int_digits int_max_str_digits ds Hne Hds).
  destruct (within_limit int_max_str_digits ds); reflexivity.
Qed.

(** The line of a message: the number of its first match when the
    interpreter converts it, nothing otherwise. *)
Lemma extract_error_line_first_match (msg : str) :
  (forall digits,
     first_match msg digits ->
     _extract_error_line msg
     = if within_limit int_max_str_digits digits
       then Some (number_of digits) else None)
  /\ (no_match msg -> _extract_error_line msg = None)
  /\ ((exists digits, first_match msg digits) \/ no_match msg).
Proof.
  rewrite extract_error_line_spec.
  destruct (re_search_line msg) as [ds|] eqn:E.
  - pose proof (re_search_line_first_match msg ds E) as F.
    split; [|split].
    + intros digits F'. now rewrite (first_match_unique msg digits ds F' F).
    + intros Hno. destruct F as (pre & M & _). now destruct (Hno pre ds).
    + left. now exists ds.
  - pose proof (re_search_line_no_match msg E) as Hno.
    split; [|split].
    + intros digits (pre & M & _). now destruct (Hno pre digits).
    + reflexivity.
    + now right.
Qed.

(** An input the validation rejects is answered with the parse error, by
    every handler. *)
Lemma rejected_response (e : endpoint) (w : World) (rq : Request)
    (xml_text : option str) (xml_file : option UploadFile) (n : N)
    (msg : str) :
  measured_size xml_text xml_file = Some n ->
  n <= MAX_XML_BYTES ->
  strip (input_text xml_text xml_file) <> [] ->
  defused_fromstring (str_encode_utf8 (strip (input_text xml_text xml_file)))
  = Raised msg ->
  handle e w rq xml_text xml_file
  = ([Call_defused_fromstring
        (str_encode_utf8 (strip (input_text xml_text xml_file)))],
     Return (parse_error_response msg)).
Proof.
  intros Hm Hn Hraw Hv. apply N.ltb_ge in Hn.
  destruct e; cbn [handle];
    [rewrite xml_format_spec | rewrite xml_minify_spec
     | rewrite xml_convert_spec];
    rewrite Hm, Hn; cbv zeta;
    (destruct (strip (input_text xml_text xml_file)) as [|c raw];
     [contradiction|]); now rewrite Hv.
Qed.

(** C6, amended.  For every input of at most 1,000,000 bytes that is not
    blank and that the validation rejects with the diagnostic [msg], every
    endpoint returns HTTP 400 with the error message [XML parse error: ]
    followed by [msg] (so not empty) and a [line] field.  When the pattern
    [line], white space, digits (letters in any case) matches in [msg],
    [line] is the number the digits of the first match denote, provided the
    interpreter converts a run of digits that long (at most 640 digits, or
    at most [sys.get_int_max_str_digits()], 4300 by default, or no limit
    set); for a longer run [line] is null.  When the pattern does not match,
    [line] is null.  One of the two is the case. *)
Theorem malformed_input_response (e : endpoint) (w : World) (rq : Request)
    (xml_text : option str) (xml_file : option UploadFile) (n : N)
    (msg : str) :
  measured_size xml_text xml_file = Some n ->
  n <= MAX_XML_BYTES ->
  strip (input_text xml_text xml_file) <> [] ->
  defused_fromstring (str_encode_utf8 (strip (input_text xml_text xml_file)))
  = Raised msg ->
  exists line : option Z,
    serve (handle e w rq xml_text xml_file)
    = Responded
        (JSONResponse
           (JDict [(lit "error", JStr (lit "XML parse error: " ++ msg));
                   (lit "line", json_of_line line)])
           400)
    /\ lit "XML parse error: " ++ msg <> []
    /\ (forall digits,
          first_match msg digits ->
          line = if within_limit int_max_str_digits digits
                 then Some (number_of digits) else None)
    /\ (no_match msg -> line = None)
    /\ ((exists digits, first_match msg digits) \/ no_match msg).
Proof.
  intros Hm Hn Hraw Hv. exists (_extract_error_line msg).
  rewrite (rejected_response e w rq xml_text xml_file n msg Hm Hn Hraw Hv).
  split; [reflexivity|]. split; [discriminate|].
  apply extract_error_line_first_match.
Qed.

End ParseErrors.

(** The theorem at work: [<a><b></a>] on the reference libraries, whose
    parser reports the mismatched tag on line 1. *)
Lemma malformed_input_response_example :
  exists line : option Z,
    serve (handle (L := reference_libraries) Minify new_year plain_request
             (Some (lit "<a><b></a>")) None)
    = Responded
        (JSONResponse
           (JDict [(lit "error",
                    JStr (lit "XML parse error: "
                          ++ lit "mismatched tag: line 1, column 8"));
                   (lit "line", json_of_line line)])
           400)
    /\ lit "XML parse error: " ++ lit "mismatched tag: line 1, column 8" <> []
    /\ (forall digits,
          first_match (lit "mismatched tag: line 1, column 8") digits ->
          line = if within_limit DEFAULT_MAX_STR_DIGITS digits
                 then Some (number_of digits) else None)
    /\ (no_match (lit "mismatched tag: line 1, column 8") -> line = None)
    /\ ((exists digits,
           first_match (lit "mismatched tag: line 1, column 8") digits)
        \/ no_match (lit "mismatched tag: line 1, column 8")).
Proof.
  apply (malformed_input_response (L := reference_libraries) Minify new_year
           plain_request (Some (lit "<a><b></a>")) None 10
           (lit "mismatched tag: line 1, column 8")).
  - reflexivity.
  - vm_compute. discriminate.
  - vm_compute. discriminate.
  - vm_compute. reflexivity.
Defined.

(** What that request is answered with. *)
Lemma malformed_example_line :
  serve (handle (L := reference_libraries) Minify new_year plain_request
           (Some (lit "<a><b></a>")) None)
  = Responded
      (JSONResponse
         (JDict [(lit "error",
                  JStr (lit "XML parse error: mismatched tag: line 1, column 8"));
                 (lit "line", JInt 1)])
         400).
Proof. vm_compute. reflexivity. Qed.

(** A diagnostic that quotes the document can hold a run of digits longer
    than the interpreter converts: the pattern matches, with 4301 digits
    as its first match, and [line] is null all the same.  The message is
    the one [defusedxml] has for an entity declaration it forbids, on the
    document [<!DOCTYPE a [<!ENTITY x SYSTEM 'line 1...1'>]><a/>]. *)
Lemma long_line_number_is_dropped :
  first_match
    (lit "EntitiesForbidden(name='x', system_id='line " ++ copies 4301 49
     ++ lit "', public_id=None)")
    (copies 4301 49)
  /\ serve (handle
              (L := rejecting_libraries
                      (lit "EntitiesForbidden(name='x', system_id='line "
                       ++ copies 4301 49 ++ lit "', public_id=None)"))
              Convert new_year plain_request
              (Some (lit "<!DOCTYPE a [<!ENTITY x SYSTEM 'line "
                     ++ copies 4301 49 ++ lit "'>]><a/>"))
              None)
     = Responded
         (JSONResponse
            (JDict [(lit "error",
                     JStr (lit "XML parse error: "
                           ++ lit "EntitiesForbidden(name='x', system_id='line "
                           ++ copies 4301 49 ++ lit "', public_id=None)"));
                    (lit "line", JNull)])
            400).
Proof.
  split.
  - apply re_search_line_first_match. vm_compute. reflexivity.
  - vm_compute. reflexivity.
Qed.

(** ** 16. The conversion to JSON (C2) *)










Section Conversion.

Context {L : Libraries}.


End Conversion.


(** ** 17. UTF-8: decoding what was encoded *)

Ltac divmod c d :=
  let q := fresh "q" in
  let r := fresh "r" in
  pose proof (N.div_mod' c d);
  pose proof (N.mod_lt c d ltac:(discriminate));
  set (q := c / d) in *; set (r := c mod d) in *; clearbody q r.

Lemma scalar_cases (c : codepoint) :
  scalar c = true -> c < 0xD800 \/ (0xDFFF < c /\ c <= 0x10FFFF).
Proof.
  unfold scalar. intros H. apply orb_true_iff in H. destruct H as [H|H].
  - left. now apply N.ltb_lt.
  - right. apply andb_true_iff in H. destruct H as [H1 H2].
    split; [now apply N.ltb_lt | now apply N.leb_le].
Qed.

(** A continuation byte carries six bits. *)
Lemma cont_byte (r : N) :
  r < 64 -> is_cont (0x80 + r) = true /\ cont (0x80 + r) = r.
Proof.
  intros H. unfold is_cont, cont. split; [|lia].
  apply andb_true_iff. split; apply N.leb_le; lia.
Qed.

Lemma leb_false (a b : N) : b < a -> (a <=? b) = false.
Proof. intros H. now apply N.leb_gt. Qed.

Lemma leb_true (a b : N) : a <= b -> (a <=? b) = true.
Proof. intros H. now apply N.leb_le. Qed.

(** Decoding reads back the character that was encoded. *)
Lemma utf8_decode_encode_char (c : codepoint) (rest : list N) :
  scalar c = true ->
  utf8_decode (utf8_encode_char c ++ rest)
  = option_map (cons c) (utf8_decode rest).
Proof.
  intros Hs. apply scalar_cases in Hs. unfold utf8_encode_char.
  destruct (N.leb_spec c 0x7F) as [H1|H1].
  { cbn [app utf8_decode]. now rewrite (leb_true _ _ H1). }
  destruct (N.leb_spec c 0x7FF) as [H2|H2].
  { divmod c 64. destruct (cont_byte r) as [C0 V0]; [lia|].
    cbn [app utf8_decode].
    rewrite (leb_false (0xC0 + q) 0x7F) by lia.
    rewrite (leb_true 0xC2 (0xC0 + q)), (leb_true (0xC0 + q) 0xDF) by lia.
    cbn [andb]. rewrite C0, V0.
    replace ((0xC0 + q - 0xC0) * 64 + r) with c by lia. reflexivity. }
  destruct (N.leb_spec c 0xFFFF) as [H3|H3].
  { change 4096 with (64 * 64). rewrite <- N.Div0.div_div.
    divmod c 64. divmod q 64.
    destruct (cont_byte r) as [C0 V0]; [lia|].
    destruct (cont_byte r0) as [C1 V1]; [lia|].
    cbn [app utf8_decode].
    rewrite (leb_false (0xE0 + q0) 0x7F) by lia.
    replace ((0xC2 <=? 0xE0 + q0) && (0xE0 + q0 <=? 0xDF)) with false
      by (symmetry; apply andb_false_iff; right; apply N.leb_gt; lia).
    rewrite (leb_true 0xE0 (0xE0 + q0)), (leb_true (0xE0 + q0) 0xEF) by lia.
    cbn [andb]. rewrite C0, C1, V0, V1. cbn [andb].
    replace (negb (0xE0 + q0 =? 0xE0) || (0xA0 <=? 0x80 + r0)) with true.
    2:{ symmetry. destruct (N.eqb_spec (0xE0 + q0) 0xE0) as [E|E].
        - apply leb_true. lia.
        - reflexivity. }
    replace (negb (0xE0 + q0 =? 0xED) || (0x80 + r0 <=? 0x9F)) with true.
    2:{ symmetry. destruct (N.eqb_spec (0xE0 + q0) 0xED) as [E|E].
        - apply leb_true. lia.
        - reflexivity. }
    cbn [andb].
    replace ((0xE0 + q0 - 0xE0) * 4096 + r0 * 64 + r) with c by lia.
    reflexivity. }
  change 262144 with (64 * 64 * 64). change 4096 with (64 * 64).
  rewrite <- !N.Div0.div_div.
  divmod c 64. divmod q 64. divmod q0 64.
  destruct (cont_byte r) as [C0 V0]; [lia|].
  destruct (cont_byte r0) as [C1 V1]; [lia|].
  destruct (cont_byte r1) as [C2 V2]; [lia|].
  cbn [app utf8_decode].
  rewrite (leb_false (0xF0 + q1) 0x7F) by lia.
  replace ((0xC2 <=? 0xF0 + q1) && (0xF0 + q1 <=? 0xDF)) with false
    by (symmetry; apply andb_false_iff; right; apply N.leb_gt; lia).
  replace ((0xE0 <=? 0xF0 + q1) && (0xF0 + q1 <=? 0xEF)) with false
    by (symmetry; apply andb_false_iff; right; apply N.leb_gt; lia).
  rewrite (leb_true 0xF0 (0xF0 + q1)), (leb_true (0xF0 + q1) 0xF4) by lia.
  cbn [andb]. rewrite C0, C1, C2, V0, V1, V2. cbn [andb].
  replace (negb (0xF0 + q1 =? 0xF0) || (0x90 <=? 0x80 + r1)) with true.
  2:{ symmetry. destruct (N.eqb_spec (0xF0 + q1) 0xF0) as [E|E].
      - apply leb_true. lia.
      - reflexivity. }
  replace (negb (0xF0 + q1 =? 0xF4) || (0x80 + r1 <=? 0x8F)) with true.
  2:{ symmetry. destruct (N.eqb_spec (0xF0 + q1) 0xF4) as [E|E].
      - apply leb_true. lia.
      - reflexivity. }
  cbn [andb].
  replace ((0xF0 + q1 - 0xF0) * 262144 + r1 * 4096 + r0 * 64 + r)
    with c by lia.
  reflexivity.
Qed.

(** Every byte of an encoded character is an octet. *)
Lemma utf8_encode_char_octets (c : codepoint) :
  scalar c = true -> Forall (fun b => b < 256) (utf8_encode_char c).
Proof.
  intros Hs. apply scalar_cases in Hs. unfold utf8_encode_char.
  destruct (N.leb_spec c 0x7F) as [H1|H1].
  { repeat constructor. lia. }
  destruct (N.leb_spec c 0x7FF) as [H2|H2].
  { divmod c 64. repeat constructor; lia. }
  destruct (N.leb_spec c 0xFFFF) as [H3|H3].
  { change 4096 with (64 * 64). rewrite <- N.Div0.div_div.
    divmod c 64. divmod q 64. repeat constructor; lia. }
  change 262144 with (64 * 64 * 64). change 4096 with (64 * 64).
  rewrite <- !N.Div0.div_div.
  divmod c 64. divmod q 64. divmod q0 64. repeat constructor; lia.
Qed.

Lemma byte_of_N_value (n : N) : n < 256 -> Byte.to_N (byte_of_N n) = n.
Proof.
  intros H. unfold byte_of_N. destruct (Byte.of_N n) as [b|] eqn:E.
  - now apply Byte.to_of_N.
  - apply Byte.of_N_None_iff in E. lia.
Qed.

Lemma bytes_of_octets (l : list N) :
  Forall (fun b => b < 256) l -> map Byte.to_N (map byte_of_N l) = l.
Proof.
  induction 1 as [|b l Hb _ IH]; [reflexivity|].
  cbn [map]. now rewrite IH, byte_of_N_value.
Qed.

(** [s.encode("utf-8").decode("utf-8")] gives [s] back. *)
Lemma utf8_round_trip (s : str) :
  forallb scalar s = true ->
  bytes_decode_utf8 (str_encode_utf8 s) = Returned s.
Proof.
  intros H. unfold bytes_decode_utf8.
  assert (E : utf8_decode (map Byte.to_N (str_encode_utf8 s)) = Some s).
  { induction s as [|c s IH]; [reflexivity|].
    cbn [forallb] in H. apply andb_true_iff in H. destruct H as [Hc Hs].
    unfold str_encode_utf8 in *. cbn [flat_map]. rewrite map_app.
    rewrite (bytes_of_octets _ (utf8_encode_char_octets c Hc)).
    rewrite (utf8_decode_encode_char c _ Hc), (IH Hs). reflexivity. }
  now rewrite E.
Qed.

(** ** 18. The compact writer *)





(** *** Escaping *)








(** *** The characters of a serialisation *)




(** *** Outside the tags *)









(** ** 19. Minifying (C4) *)


Section Minify.

Context {L : Libraries}.


End Minify.


(** What that request is answered with. *)
Lemma minify_example_output :
  serve (xml_minify (L := reference_libraries) new_year plain_request
           (Some (lit "<a x='1'>" ++ [10] ++ lit "<b/> t &amp; u</a>"))
           None)
  = Responded
      (JSONResponse
         (JDict
            [(lit "pretty",
              JStr (lit "<a x=" ++ [34] ++ lit "1" ++ [34] ++ lit ">"
                    ++ [10] ++ lit "<b /> t &amp; u</a>"))])
         200).
Proof. vm_compute. reflexivity. Qed.


(** ** 20. Where the input comes from *)

Lemma utf8_decode_encoded (s : str) :
  forallb scalar s = true ->
  utf8_decode (map Byte.to_N (str_encode_utf8 s)) = Some s.
Proof.
  intros H. pose proof (utf8_round_trip s H) as R.
  unfold bytes_decode_utf8 in R.
  destruct (utf8_decode (map Byte.to_N (str_encode_utf8 s)));
    [now injection R as -> | discriminate R].
Qed.

(** A handler reads its input through its measured size, compared with the
    limit, through the word for its source, and through its text. *)
Lemma handle_reads_input (e : endpoint) (w : World) (rq : Request)
    {L : Libraries}
    (text1 text2 : option str) (file1 file2 : option UploadFile) :
  measured_size text1 file1 = measured_size text2 file2 ->
  input_text text1 file1 = input_text text2 file2 ->
  source_name file1 = source_name file2 ->
  handle e w rq text1 file1 = handle e w rq text2 file2.
Proof.
  intros Hm Hi Hs.
  destruct e; cbn [handle];
    [rewrite !xml_format_spec | rewrite !xml_minify_spec
     | rewrite !xml_convert_spec];
    now rewrite Hm, Hi, Hs.
Qed.

(** Within the limit the word for the source is not read either. *)
Lemma handle_reads_input_within_limit (e : endpoint) (w : World)
    (rq : Request) {L : Libraries}
    (text1 text2 : option str) (file1 file2 : option UploadFile)
    (n1 n2 : N) :
  measured_size text1 file1 = Some n1 -> n1 <= MAX_XML_BYTES ->
  measured_size text2 file2 = Some n2 -> n2 <= MAX_XML_BYTES ->
  strip (input_text text1 file1) = strip (input_text text2 file2) ->
  handle e w rq text1 file1 = handle e w rq text2 file2.
Proof.
  intros Hm1 Hn1 Hm2 Hn2 Hi. apply N.ltb_ge in Hn1, Hn2.
  destruct e; cbn [handle];
    [rewrite !xml_format_spec | rewrite !xml_minify_spec
     | rewrite !xml_convert_spec];
    now rewrite Hm1, Hm2, Hn1, Hn2, Hi.
Qed.

Section InputSource.

Context {L : Libraries}.

(** X1.  Uploading a file that holds the UTF-8 encoding of a text is the
    same as pasting the text: for a text [s] of at most 1,000,000 bytes of
    UTF-8, a request whose upload is named and holds [s.encode("utf-8")]
    runs exactly as the request with [xml_text = s] and no upload (the same
    response, the same library calls), whatever [xml_text] came along with
    the upload. *)
Theorem utf8_upload_runs_as_text (e : endpoint) (w : World) (rq : Request)
    (s name : str) (xml_text : option str) :
  forallb scalar s = true ->
  name <> [] ->
  len (str_encode_utf8 s) <= MAX_XML_BYTES ->
  handle e w rq xml_text
    (Some {| filename := Some name; file_contents := str_encode_utf8 s |})
  = handle e w rq (Some s) None.
Proof.
  intros Hs Hname Hn.
  apply (handle_reads_input_within_limit e w rq _ _ _ _
           (len (str_encode_utf8 s)) (len (str_encode_utf8 s)));
    try exact Hn;
    try (unfold measured_size, named_upload; cbn [filename file_contents];
         destruct name; [contradiction|reflexivity]).
  destruct name as [|c name]; [contradiction|].
  unfold input_text, named_upload. cbn [filename file_contents].
  now rewrite (utf8_decode_encoded s Hs).
Qed.

(** X2.  A named upload takes precedence over the text field: when the
    upload has a file name that is not empty, [xml_text] is not read at
    all, so two requests with the same upload run alike whatever their
    [xml_text] (absent, oversized, malformed). *)
Theorem named_upload_overrides_text (e : endpoint) (w : World) (rq : Request)
    (text1 text2 : option str) (f : UploadFile) (name : str) :
  filename f = Some name -> name <> [] ->
  handle e w rq text1 (Some f) = handle e w rq text2 (Some f).
Proof.
  intros Hf Hname.
  assert (Hu : named_upload (Some f) = Some f).
  { unfold named_upload. rewrite Hf.
    destruct name; [contradiction|reflexivity]. }
  apply handle_reads_input; [| |reflexivity].
  - unfold measured_size. now rewrite Hu.
  - unfold input_text. now rewrite Hu.
Qed.

(** X3.  A request without input is refused before anything is read or
    parsed: when there is no [xml_text] and the upload is absent or has no
    file name (its content is then ignored), the response is HTTP 400 with
    the message of the route, ["No XML provided. Paste XML or upload an .xml
    file."] for [/xml/format] and ["No XML provided."] for [/xml/minify] and
    [/xml/convert], and no library is called. *)
Theorem no_input_rejected (e : endpoint) (w : World) (rq : Request)
    (xml_file : option UploadFile) :
  (xml_file = None
   \/ exists f, xml_file = Some f
                /\ (filename f = None \/ filename f = Some [])) ->
  serve (handle e w rq None xml_file)
  = Responded
      (JSONResponse
         (JDict
            [(lit "error",
              JStr match e with
                   | Format _ =>
                       lit "No XML provided. Paste XML or upload an .xml file."
                   | _ => lit "No XML provided."
                   end)])
         400)
  /\ calls_of (handle e w rq None xml_file) = [].
Proof.
  intros H.
  assert (Hu : named_upload xml_file = None).
  { destruct H as [-> | (f & -> & [Hf | Hf])]; [reflexivity| |];
      unfold named_upload; now rewrite Hf. }
  assert (Hm : measured_size None xml_file = None)
    by (unfold measured_size; now rewrite Hu).
  destruct e; cbn [handle];
    [rewrite xml_format_spec | rewrite xml_minify_spec
     | rewrite xml_convert_spec];
    rewrite Hm; split; reflexivity.
Qed.

End InputSource.

(** X1 at work: [<a/>] uploaded as [a.xml], beside a text field that is
    not XML. *)
Lemma utf8_upload_runs_as_text_example :
  handle (L := reference_libraries) Minify new_year plain_request
    (Some (lit "not xml"))
    (Some {| filename := Some (lit "a.xml");
             file_contents := str_encode_utf8 (lit "<a/>") |})
  = handle (L := reference_libraries) Minify new_year plain_request
      (Some (lit "<a/>")) None.
Proof.
  apply (utf8_upload_runs_as_text (L := reference_libraries)).
  - reflexivity.
  - discriminate.
  - vm_compute. discriminate.
Defined.

(** X2 at work: the upload [<a/>] beside two different texts. *)
Lemma named_upload_overrides_text_example :
  handle (L := reference_libraries) Convert new_year plain_request
    (Some (lit "<b>"))
    (Some {| filename := Some (lit "a.xml");
             file_contents := [x3c; x61; x2f; x3e]%byte |})
  = handle (L := reference_libraries) Convert new_year plain_request
      None
      (Some {| filename := Some (lit "a.xml");
               file_contents := [x3c; x61; x2f; x3e]%byte |}).
Proof.
  apply (named_upload_overrides_text (L := reference_libraries))
    with (name := lit "a.xml").
  - reflexivity.
  - discriminate.
Defined.

(** X3 at work: an upload that has content but an empty file name. *)
Lemma no_input_rejected_example :
  serve (handle (L := reference_libraries) (Format 2) new_year plain_request
           None
           (Some {| filename := Some [];
                    file_contents := [x3c; x61; x2f; x3e]%byte |}))
  = Responded
      (JSONResponse
         (JDict
            [(lit "error",
              JStr (lit "No XML provided. Paste XML or upload an .xml file."))])
         400)
  /\ calls_of (handle (L := reference_libraries) (Format 2) new_year
                 plain_request None
                 (Some {| filename := Some [];
                          file_contents := [x3c; x61; x2f; x3e]%byte |}))
     = [].
Proof.
  apply (no_input_rejected (L := reference_libraries) (Format 2)).
  right. eexists. split; [reflexivity|]. now right.
Defined.

(** ** 21. White space around the input *)

Lemma lstrip_app_space (a s : str) :
  forallb isspace a = true -> lstrip (a ++ s) = lstrip s.
Proof.
  induction a as [|c a IH]; intros H; [reflexivity|].
  cbn [forallb] in H. apply andb_true_iff in H. destruct H as [Hc Ha].
  cbn [app lstrip]. rewrite Hc. now apply IH.
Qed.

Lemma rstrip_app_space (s b : str) :
  forallb isspace b = true -> rstrip (s ++ b) = rstrip s.
Proof.
  intros H. induction s as [|c s IH].
  - now apply rstrip_all_space.
  - cbn [app rstrip]. now rewrite IH.
Qed.

Lemma lstrip_app_text (c : codepoint) (s b : str) :
  isspace c = false -> lstrip (s ++ c :: b) = lstrip s ++ c :: b
  \/ (forallb isspace s = true /\ lstrip (s ++ c :: b) = c :: b).
Proof.
  intros Hc. induction s as [|d s IH].
  - right. split; [reflexivity|]. cbn [app lstrip]. now rewrite Hc.
  - cbn [app lstrip]. destruct (isspace d) eqn:Ed.
    + destruct IH as [IH | [Hs IH]]; [now left|].
      right. split; [|exact IH]. cbn [forallb]. now rewrite Ed.
    + now left.
Qed.

(** Stripping a padded text gives the stripped text. *)
Lemma strip_padded (a s b : str) :
  forallb isspace a = true -> forallb isspace b = true ->
  strip (a ++ s ++ b) = strip s.
Proof.
  intros Ha Hb. unfold strip. rewrite (lstrip_app_space a _ Ha).
  destruct (lstrip_space_prefix s) as (ws & E & Hws).
  destruct (lstrip s) as [|c t] eqn:El.
  - rewrite app_nil_r in E. subst ws.
    rewrite lstrip_all_space; [reflexivity|].
    rewrite forallb_app. now rewrite Hws, Hb.
  - assert (Hc : isspace c = false).
    { destruct (lstrip_head s) as [H | (c' & t' & H & Hc')]; congruence. }
    rewrite E at 1. rewrite <- app_assoc, (lstrip_app_space ws _ Hws).
    cbn [app lstrip]. rewrite Hc.
    change (c :: t ++ b) with ((c :: t) ++ b).
    now apply rstrip_app_space.
Qed.

Section Padding.

Context {L : Libraries}.

(** X5.  White space around the pasted text does not change the outcome:
    a text and the same text with white space before and after it, both of
    at most 1,000,000 bytes of UTF-8, are answered alike by every endpoint,
    with the same response and the same library calls. *)
Theorem surrounding_white_space_ignored (e : endpoint) (w : World)
    (rq : Request) (before text after : str) :
  forallb isspace before = true ->
  forallb isspace after = true ->
  len (str_encode_utf8 (before ++ text ++ after)) <= MAX_XML_BYTES ->
  handle e w rq (Some (before ++ text ++ after)) None
  = handle e w rq (Some text) None.
Proof.
  intros Ha Hb Hn.
  apply (handle_reads_input_within_limit e w rq _ _ _ _
           (len (str_encode_utf8 (before ++ text ++ after)))
           (len (str_encode_utf8 text))); try reflexivity; try exact Hn.
  - rewrite !len_length in *. unfold str_encode_utf8 in *.
    rewrite !flat_map_app, !length_app in Hn. lia.
  - cbn [input_text named_upload]. now apply strip_padded.
Qed.

End Padding.

(** X5 at work: [<a/>] between a newline and two spaces. *)
Lemma surrounding_white_space_ignored_example :
  handle (L := reference_libraries) (Format 2) new_year plain_request
    (Some ([10] ++ lit "<a/>" ++ [32; 32])) None
  = handle (L := reference_libraries) (Format 2) new_year plain_request
      (Some (lit "<a/>")) None.
Proof.
  apply (surrounding_white_space_ignored (L := reference_libraries)).
  - reflexivity.
  - reflexivity.
  - vm_compute. discriminate.
Defined.

(** ** 22. The lines of the pretty string *)

Lemma filter_idem (A : Type) (f : A -> bool) (l : list A) :
  filter f (filter f l) = filter f l.
Proof.
  induction l as [|x l IH]; [reflexivity|]. cbn [filter].
  destruct (f x) eqn:E; [|exact IH]. cbn [filter]. now rewrite E, IH.
Qed.

(** X6.  Removing the blank lines is idempotent: applied to its own
    output, the post-processing of the pretty string changes nothing (the
    output has only non-blank lines, separated by single newlines). *)
Theorem drop_blank_lines_idempotent (pretty : str) :
  drop_blank_lines (drop_blank_lines pretty) = drop_blank_lines pretty.
Proof.
  unfold drop_blank_lines at 1.
  rewrite (proj1 (drop_blank_lines_lines pretty)).
  unfold kept_lines. rewrite filter_idem. reflexivity.
Qed.

Lemma join_in (sep : str) (ls : list str) (c : codepoint) :
  In c (join sep ls) -> In c sep \/ exists l, In l ls /\ In c l.
Proof.
  induction ls as [|p [|q rest] IH]; cbn [join]; intros H.
  - destruct H.
  - right. exists p. split; [now left|exact H].
  - apply in_app_or in H. destruct H as [H|H].
    + right. exists p. split; [now left|exact H].
    + apply in_app_or in H. destruct H as [H|H]; [now left|].
      destruct (IH H) as [Hs | (l & Hl & Hc)]; [now left|].
      right. exists l. split; [now right|exact Hc].
Qed.

(** The first and the last character of joined lines are those of the
    first and of the last line. *)
Lemma join_ends (sep : str) (ls : list str) :
  Forall (fun l => l <> []) ls -> ls <> [] ->
  exists first last,
    In first ls /\ In last ls
    /\ (exists t, join sep ls = hd 0 first :: t)
    /\ (exists t, join sep ls = t ++ [List.last last 0]).
Proof.
  induction ls as [|p [|q rest] IH]; intros Hne Hls; [contradiction| |].
  - inversion Hne as [|? ? Hp _]; subst. exists p, p. cbn [join].
    repeat split; try now left.
    + destruct p as [|c p]; [contradiction|]. now exists p.
    + exists (removelast p). now apply app_removelast_last.
  - inversion Hne as [|? ? Hp Hrest]; subst.
    destruct (IH Hrest ltac:(discriminate)) as (f' & l' & _ & Hl' & _ & [t Ht]).
    exists p, l'. cbn [join]. repeat split; [now left|now right| |].
    + destruct p as [|c p]; [contradiction|]. now eexists.
    + cbn [join] in Ht. rewrite Ht. exists (p ++ sep ++ t).
      now rewrite <- !app_assoc.
Qed.

(** X7.  In the pretty string the newline is the only line boundary, and it
    stands between two lines only: whatever line endings the printer's
    output has (CR LF, form feed, U+2028, ...), every line boundary of
    [drop_blank_lines pretty] is a ["\n"], and the string neither starts
    nor ends with one. *)
Theorem pretty_string_line_breaks (pretty : str) :
  (forall c, In c (drop_blank_lines pretty) ->
             is_linebreak c = true -> c = 10)
  /\ (forall t, drop_blank_lines pretty <> 10 :: t)
  /\ (forall t, drop_blank_lines pretty <> t ++ [10]).
Proof.
  pose proof (kept_lines_proper pretty) as Hk.
  assert (Hproper : Forall proper_line (kept_lines pretty)).
  { eapply Forall_impl; [|exact Hk]. now intros l [H _]. }
  assert (Hin : forall l c, In l (kept_lines pretty) -> In c l ->
                            is_linebreak c = false).
  { intros l c Hl Hc. rewrite Forall_forall in Hproper.
    destruct (Hproper l Hl) as [_ Hnb]. unfold no_break in Hnb.
    rewrite Forall_forall in Hnb. now apply Hnb. }
  unfold drop_blank_lines. fold (kept_lines pretty).
  split; [|split].
  - intros c Hc Hb. apply join_in in Hc.
    destruct Hc as [[<-|[]] | (l & Hl & Hc)]; [reflexivity|].
    rewrite (Hin l c Hl Hc) in Hb. discriminate.
  - intros t E. destruct (kept_lines pretty) as [|p rest] eqn:Ek;
      [discriminate E|].
    destruct (join_ends [10] (p :: rest)) as (f & l & Hf & _ & [t' Ht] & _).
    + eapply Forall_impl; [|exact Hproper]. now intros a [H _].
    + discriminate.
    + rewrite Ht in E. injection E as E _.
      rewrite Forall_forall in Hproper. destruct (Hproper f Hf) as [Hne _].
      destruct f as [|c f]; [contradiction|]. cbn [hd] in E. subst c.
      specialize (Hin (10 :: f) 10 Hf (or_introl eq_refl)). discriminate Hin.
  - intros t E. destruct (kept_lines pretty) as [|p rest] eqn:Ek.
    { destruct t; discriminate E. }
    destruct (join_ends [10] (p :: rest)) as (f & l & _ & Hl & _ & [t' Ht]).
    + eapply Forall_impl; [|exact Hproper]. now intros a [H _].
    + discriminate.
    + rewrite Ht in E. apply app_inj_tail in E. destruct E as [_ E].
      rewrite Forall_forall in Hproper. destruct (Hproper l Hl) as [Hne _].
      assert (Hlast : In (List.last l 0) l).
      { destruct (exists_last Hne) as (l0 & a & ->).
        rewrite last_last. apply in_or_app. right. now left. }
      rewrite E in Hlast. specialize (Hin l 10 Hl Hlast). discriminate Hin.
Qed.

(** ** 23. More on the handlers *)

Lemma utf8_encode_char_length (c : codepoint) :
  (1 <= length (utf8_encode_char c) <= 4)%nat.
Proof.
  unfold utf8_encode_char.
  destruct (c <=? 0x7F); [simpl; lia|].
  destruct (c <=? 0x7FF); [simpl; lia|].
  destruct (c <=? 0xFFFF); simpl; lia.
Qed.

(** A text takes between one and four bytes per character. *)
Lemma encoded_length_bounds (s : str) :
  len s <= len (str_encode_utf8 s) <= 4 * len s.
Proof.
  rewrite !len_length. unfold str_encode_utf8.
  induction s as [|c s IH]; [simpl; lia|].
  cbn [flat_map length]. rewrite length_app, length_map.
  pose proof (utf8_encode_char_length c). lia.
Qed.

Section MoreOnHandlers.

Context {L : Libraries}.

(** X4.  The line number [_extract_error_line] returns is never negative:
    the pattern captures digits only, so a sign before them is not read
    (["line -5"] has no match at all). *)
Theorem extracted_line_not_negative (msg : str) (n : Z) :
  _extract_error_line msg = Some n -> (0 <= n)%Z.
Proof.
  rewrite extract_error_line_spec.
  destruct (re_search_line msg) as [ds|]; [|discriminate].
  destruct (within_limit int_max_str_digits ds); [|discriminate].
  intros [= <-]. unfold number_of. lia.
Qed.

(** X8.  Validation is the trust boundary: a transform library is called
    only on an input the validating parser accepted, the validation is the
    first library call of every request that makes one, and every HTTP 200
    response is for an input of at most 1,000,000 bytes that is not blank
    and that the validating parser accepted. *)
Theorem transforms_follow_validation (e : endpoint) (w : World)
    (rq : Request) (xml_text : option str) (xml_file : option UploadFile) :
  (forall c,
      In c (calls_of (handle e w rq xml_text xml_file)) ->
      c = Call_defused_fromstring
            (str_encode_utf8 (strip (input_text xml_text xml_file)))
      \/ exists u,
           defused_fromstring
             (str_encode_utf8 (strip (input_text xml_text xml_file)))
           = Returned u)
  /\ (calls_of (handle e w rq xml_text xml_file) = []
      \/ exists rest,
           calls_of (handle e w rq xml_text xml_file)
           = Call_defused_fromstring
               (str_encode_utf8 (strip (input_text xml_text xml_file)))
             :: rest)
  /\ (forall r,
         serve (handle e w rq xml_text xml_file) = Responded r ->
         status_code r = 200%Z ->
         (exists n, measured_size xml_text xml_file = Some n
                    /\ n <= MAX_XML_BYTES)
         /\ strip (input_text xml_text xml_file) <> []
         /\ exists u,
              defused_fromstring
                (str_encode_utf8 (strip (input_text xml_text xml_file)))
              = Returned u).
Proof.
  destruct e; cbn [handle];
    [rewrite xml_format_spec | rewrite xml_minify_spec
     | rewrite xml_convert_spec];
    (destruct (measured_size xml_text xml_file) as [n|];
     [|split; [intros c []
              |split; [now left|intros r [= <-]; discriminate]]]);
    (destruct (N.ltb_spec MAX_XML_BYTES n) as [Hn|Hn];
     [split; [intros c []
             |split; [now left|intros r [= <-]; discriminate]]|]);
    cbv zeta;
    (destruct (strip (input_text xml_text xml_file)) as [|c0 raw];
     [split; [intros c []
             |split; [now left|intros r [= <-]; discriminate]]|]);
    (destruct (defused_fromstring (str_encode_utf8 (c0 :: raw)))
       as [u|msg] eqn:Hv;
     [|split; [intros c [<-|[]]; now left
              |split; [right; now eexists
                      |intros r [= <-]; discriminate]]]).
  - destruct (minidom_parseString (str_encode_utf8 (c0 :: raw))) as [dom|msg];
      [destruct (toprettyxml dom (spaces (chosen_indent indent_spaces)))|];
      (split; [intros c _; right; now exists u|]);
      (split; [right; now eexists|]);
      intros r _ _; (split; [now exists n|]);
      (split; [discriminate|now exists u]).
  - destruct (ET_fromstring (c0 :: raw)) as [tree|msg];
      [destruct (ET_tostring tree) as [encoded|msg]|];
      (split; [intros c _; right; now exists u|]);
      (split; [right; now eexists|]);
      intros r _ _; (split; [now exists n|]);
      (split; [discriminate|now exists u]).
  - destruct (xmltodict_parse (c0 :: raw)) as [parsed|msg];
      (split; [intros c _; right; now exists u|]);
      (split; [right; now eexists|]);
      intros r _ _; (split; [now exists n|]);
      (split; [discriminate|now exists u]).
Qed.

(** X9.  The size limit counts bytes of UTF-8, not characters: a pasted
    text of at most 250,000 characters never gets the size error, and a
    pasted text of more than 1,000,000 characters always gets it, whatever
    the characters are. *)
Theorem text_size_in_characters (e : endpoint) (w : World) (rq : Request)
    (text : str) :
  (len text <= 250000 ->
   forall r k, serve (handle e w rq (Some text) None) = Responded r ->
               ~ is_size_error r k)
  /\ (1000000 < len text ->
      exists r, serve (handle e w rq (Some text) None) = Responded r
                /\ is_size_error r (len (str_encode_utf8 text))).
Proof.
  pose proof (encoded_length_bounds text) as [Hlo Hhi]. split.
  - intros H. apply within_limit_no_size_error.
    intros n [= <-]. unfold MAX_XML_BYTES. lia.
  - intros H.
    rewrite (oversized_response e w rq (Some text) None
               (len (str_encode_utf8 text)) eq_refl);
      [|unfold MAX_XML_BYTES; lia].
    eexists. split; [reflexivity|]. apply size_response_is_size_error.
Qed.

(** X10.  The pretty-printer is only ever called with an indentation of
    two, three or four spaces, whatever integer [indent_spaces] is (zero,
    negative, huge). *)
Theorem printer_indent_two_to_four_spaces (w : World) (rq : Request)
    (xml_text : option str) (xml_file : option UploadFile)
    (indent_spaces : Z) (indent : str) :
  In (Call_toprettyxml indent)
     (calls_of (xml_format w rq xml_text xml_file indent_spaces)) ->
  indent = [32; 32] \/ indent = [32; 32; 32] \/ indent = [32; 32; 32; 32].
Proof.
  assert (Hsp : spaces (chosen_indent indent_spaces) = [32; 32]
                \/ spaces (chosen_indent indent_spaces) = [32; 32; 32]
                \/ spaces (chosen_indent indent_spaces) = [32; 32; 32; 32]).
  { destruct (chosen_indent_cases indent_spaces)
      as [[[H|[H|H]] E] | [_ E]]; rewrite E; try rewrite H; auto. }
  rewrite xml_format_spec.
  destruct (measured_size xml_text xml_file) as [n|]; [|intros []].
  destruct (MAX_XML_BYTES <? n); [intros []|]. cbv zeta.
  destruct (strip (input_text xml_text xml_file)) as [|c0 raw]; [intros []|].
  destruct (defused_fromstring (str_encode_utf8 (c0 :: raw))) as [u|msg].
  - destruct (minidom_parseString (str_encode_utf8 (c0 :: raw))) as [dom|msg].
    + destruct (toprettyxml dom (spaces (chosen_indent indent_spaces)));
        cbn [calls_of fst In];
        intros [H|[H|[H|[]]]]; try discriminate H;
        injection H as <-; exact Hsp.
    + cbn [calls_of fst In]. intros [H|[H|[]]]; discriminate H.
  - cbn [calls_of fst In]. intros [H|[]]. discriminate H.
Qed.

(** X11.  Only the parse error of the validation carries a [line] field:
    an HTTP 400 response whose body has the keys [error] and [line] is the
    answer to an input the validating parser rejected, its message is
    ["XML parse error: "] followed by the parser's diagnostic, and its line
    is what [_extract_error_line] reads in that diagnostic.  The size,
    missing-input, empty-input and transform errors have the key [error]
    alone. *)
Theorem line_field_only_in_parse_error (e : endpoint) (w : World)
    (rq : Request) (xml_text : option str) (xml_file : option UploadFile)
    (message : str) (line : json) :
  serve (handle e w rq xml_text xml_file)
  = Responded
      (JSONResponse
         (JDict [(lit "error", JStr message); (lit "line", line)]) 400) ->
  exists msg,
    defused_fromstring
      (str_encode_utf8 (strip (input_text xml_text xml_file)))
    = Raised msg
    /\ message = lit "XML parse error: " ++ msg
    /\ line = json_of_line (_extract_error_line msg).
Proof.
  destruct e; cbn [handle];
    [rewrite xml_format_spec | rewrite xml_minify_spec
     | rewrite xml_convert_spec];
    (destruct (measured_size xml_text xml_file) as [n|];
     [|intros H; discriminate H]);
    (destruct (MAX_XML_BYTES <? n); [intros H; discriminate H|]); cbv zeta;
    (destruct (strip (input_text xml_text xml_file)) as [|c0 raw];
     [intros H; discriminate H|]);
    (destruct (defused_fromstring (str_encode_utf8 (c0 :: raw)))
       as [u|msg];
     [|intros [= <- <-]; now exists msg]).
  - destruct (minidom_parseString (str_encode_utf8 (c0 :: raw))) as [dom|msg];
      [destruct (toprettyxml dom (spaces (chosen_indent indent_spaces)))|];
      intros H; discriminate H.
  - destruct (ET_fromstring (c0 :: raw)) as [tree|msg];
      [destruct (ET_tostring tree) as [encoded|msg];
       [destruct (bytes_decode_utf8 encoded)|]|];
      intros H; discriminate H.
  - destruct (xmltodict_parse (c0 :: raw)) as [parsed|msg];
      intros H; discriminate H.
Qed.

End MoreOnHandlers.

(** X4 at work: the line of an expat message. *)
Lemma extracted_line_not_negative_example :
  _extract_error_line (L := reference_libraries)
    (lit "mismatched tag: line 3, column 8") = Some 3%Z
  /\ (0 <= 3)%Z.
Proof.
  split; [vm_compute; reflexivity|].
  apply (extracted_line_not_negative (L := reference_libraries)
           (lit "mismatched tag: line 3, column 8") 3).
  vm_compute. reflexivity.
Defined.

(** X10 at work: [indent_spaces = 1000000] on [<a><b/></a>]. *)
Lemma printer_indent_two_to_four_spaces_example :
  In (Call_toprettyxml [32; 32; 32; 32])
     (calls_of (xml_format (L := reference_libraries) new_year plain_request
                  (Some (lit "<a><b/></a>")) None 1000000))
  /\ ([32; 32; 32; 32] = [32; 32] \/ [32; 32; 32; 32] = [32; 32; 32]
      \/ [32; 32; 32; 32] = [32; 32; 32; 32]).
Proof.
  assert (H : In (Call_toprettyxml [32; 32; 32; 32])
                (calls_of (xml_format (L := reference_libraries) new_year
                             plain_request (Some (lit "<a><b/></a>")) None
                             1000000)))
    by (vm_compute; auto).
  split; [exact H|].
  exact (printer_indent_two_to_four_spaces (L := reference_libraries)
           new_year plain_request (Some (lit "<a><b/></a>")) None 1000000
           [32; 32; 32; 32] H).
Defined.

(** X11 at work: the response to [<a><b></a>]. *)
Lemma line_field_only_in_parse_error_example :
  exists msg,
    defused_fromstring (Libraries := reference_libraries)
      (str_encode_utf8 (strip (input_text (Some (lit "<a><b></a>")) None)))
    = Raised msg
    /\ lit "XML parse error: mismatched tag: line 1, column 8"
       = lit "XML parse error: " ++ msg
    /\ JInt 1
       = json_of_line (_extract_error_line (L := reference_libraries) msg).
Proof.
  apply (line_field_only_in_parse_error (L := reference_libraries) Convert
           new_year plain_request (Some (lit "<a><b></a>")) None).
  vm_compute. reflexivity.
Defined.

(** ** 24. Reading a line number back *)

Lemma str_of_uint_decimal (d : Decimal.uint) :
  Forall (fun c => isdecimal c = true) (str_of_uint d).
Proof. induction d; constructor; auto; reflexivity. Qed.

Lemma str_of_uint_nonempty (d : Decimal.uint) :
  d <> Decimal.Nil -> str_of_uint d <> [].
Proof. destruct d; [contradiction|discriminate..]. Qed.

Lemma str_of_N_nonempty (n : N) : str_of_N n <> [].
Proof.
  unfold str_of_N. apply str_of_uint_nonempty. destruct n as [|p].
  - discriminate.
  - apply DecimalPos.Unsigned.to_uint_nonnil.
Qed.

Ltac digit_value :=
  match goal with
  | |- context [decimal_value ?c] =>
      let v := eval vm_compute in (decimal_value c) in
      change (decimal_value c) with v; cbv beta iota
  end.

(** The digits of a decimal numeral, read from the left with an
    accumulator, as [int] reads them. *)
Lemma digits_value_acc (d : Decimal.uint) (acc : positive) :
  Npos (Pos.of_uint_acc d acc)
  = fold_left (fun a x => a * 10 + x)
      (map (fun c => match decimal_value c with
                     | Some v => v
                     | None => 0
                     end) (str_of_uint d))
      (Npos acc).
Proof.
  revert acc.
  induction d as [|d IH|d IH|d IH|d IH|d IH|d IH|d IH|d IH|d IH|d IH];
    intros acc; cbn [str_of_uint map fold_left Pos.of_uint_acc];
    [reflexivity|..]; rewrite IH; f_equal; digit_value; lia.
Qed.

Lemma digits_value_of_uint (d : Decimal.uint) :
  digits_value (map (fun c => match decimal_value c with
                              | Some v => v
                              | None => 0
                              end) (str_of_uint d))
  = Pos.of_uint d.
Proof.
  unfold digits_value.
  induction d as [|d IH|d IH|d IH|d IH|d IH|d IH|d IH|d IH|d IH|d IH];
    cbn [str_of_uint map fold_left Pos.of_uint];
    [reflexivity|digit_value; exact IH|..];
    rewrite digits_value_acc; f_equal.
Qed.

(** [int(str(n))] is [n]. *)
Lemma number_of_str_of_N (n : N) : number_of (str_of_N n) = Z.of_N n.
Proof.
  unfold number_of, str_of_N. rewrite digits_value_of_uint.
  f_equal. apply DecimalN.Unsigned.of_to.
Qed.

Lemma span_app_stop (p : codepoint -> bool) (r : str) (x : codepoint)
    (t : str) :
  p x = false ->
  span p (r ++ x :: t) = (fst (span p r), snd (span p r) ++ x :: t).
Proof.
  intros Hx. induction r as [|c r IH].
  - cbn [app span]. now rewrite Hx.
  - cbn [app span]. destruct (p c); [|reflexivity].
    rewrite IH. now destruct (span p r).
Qed.

(** A match that starts before the letter [l] ends before it. *)
Lemma match_before_l (s t ds : str) :
  s <> [] -> match_line_here (s ++ 108 :: t) = Some ds ->
  match_line_here s = Some ds.
Proof.
  intros Hs. destruct s as [|c1 [|c2 [|c3 [|c4 r]]]]; [contradiction|..].
  - destruct t as [|x [|y t]]; cbn [app match_line_here]; try discriminate.
    destruct (ci_l c1); discriminate.
  - destruct t as [|x t]; cbn [app match_line_here]; try discriminate.
    destruct (ci_l c1), (ci_i c2); discriminate.
  - cbn [app match_line_here].
    destruct (ci_l c1), (ci_i c2), (ci_n c3); discriminate.
  - cbn [app match_line_here].
    destruct (ci_l c1 && ci_i c2 && ci_n c3 && ci_e c4); [|discriminate].
    pose proof (span_app_stop isspace r 108 t eq_refl) as S1.
    unfold codepoint in *. rewrite S1.
    destruct (span isspace r) as [ws after]. cbn [fst snd].
    destruct ws as [|w ws]; [discriminate|].
    pose proof (span_app_stop isdecimal after 108 t eq_refl) as S2.
    unfold codepoint in *. rewrite S2.
    destruct (span isdecimal after) as [dg post]. cbn [fst snd].
    destruct dg; [discriminate|]. now intros [= <-].
Qed.

Lemma app_split_shorter (A : Type) (a b c d : list A) :
  a ++ b = c ++ d -> (length c < length a)%nat ->
  exists s, s <> [] /\ a = c ++ s /\ d = s ++ b.
Proof.
  intros E Hl. apply app_eq_app in E.
  destruct E as (l & [[-> ->] | [-> ->]]).
  - exists l. repeat split. intros ->. rewrite app_nil_r in Hl. lia.
  - rewrite length_app in Hl. lia.
Qed.

Lemma no_match_search (msg : str) : no_match msg -> re_search_line msg = None.
Proof.
  intros H. destruct (re_search_line msg) as [ds|] eqn:E; [|reflexivity].
  destruct (re_search_line_first_match msg ds E) as (pre & M & _).
  now destruct (H pre ds).
Qed.

(** The line of a message that says [line n] after a text without a match
    of the pattern: the first match is that one. *)
Lemma first_match_after (pre rest : str) (n : N) :
  no_match pre ->
  match rest with [] => True | c :: _ => isdecimal c = false end ->
  first_match (pre ++ lit "line " ++ str_of_N n ++ rest) (str_of_N n).
Proof.
  intros Hpre Hrest. exists pre. split.
  - exists (lit "line"), [32], rest. repeat split.
    + discriminate.
    + repeat constructor.
    + apply str_of_N_nonempty.
    + apply str_of_uint_decimal.
    + exact Hrest.
  - intros pre' ds' M.
    destruct (Nat.le_gt_cases (length pre) (length pre')) as [Hle|Hlt];
      [exact Hle|exfalso].
    destruct (matches_at_suffix _ pre' ds' M) as (suf & E & Hm).
    change (lit "line " ++ str_of_N n ++ rest)
      with (108 :: lit "ine " ++ str_of_N n ++ rest) in E.
    destruct (app_split_shorter _ _ _ _ _ E Hlt) as (s & Hs & Ep & Es).
    subst suf. apply match_before_l in Hm; [|exact Hs].
    rewrite (re_search_line_none pre (no_match_search pre Hpre) pre' s Ep)
      in Hm.
    discriminate.
Qed.

Section LineReadBack.

Context {L : Libraries}.

(** X12.  A line number written in a diagnostic is read back: for a
    message made of a text in which the pattern has no match, then
    [line ], then the decimal numeral of [n], then anything that does not
    start with a digit (as in ["syntax error: line 12, column 0"]),
    [_extract_error_line] returns [n], provided the numeral is within the
    interpreter's integer string conversion limit. *)
Theorem line_number_read_back (pre rest : str) (n : N) :
  no_match pre ->
  match rest with [] => True | c :: _ => isdecimal c = false end ->
  within_limit int_max_str_digits (str_of_N n) = true ->
  _extract_error_line (pre ++ lit "line " ++ str_of_N n ++ rest)
  = Some (Z.of_N n).
Proof.
  intros Hpre Hrest Hlim.
  destruct (extract_error_line_first_match
              (pre ++ lit "line " ++ str_of_N n ++ rest)) as [H _].
  rewrite (H (str_of_N n) (first_match_after pre rest n Hpre Hrest)).
  now rewrite Hlim, number_of_str_of_N.
Qed.

End LineReadBack.

(** X12 at work: line 12 of a syntax error. *)
Lemma line_number_read_back_example :
  _extract_error_line (L := reference_libraries)
    (lit "syntax error: " ++ lit "line " ++ str_of_N 12 ++ lit ", column 0")
  = Some 12%Z.
Proof.
  apply (line_number_read_back (L := reference_libraries)
           (lit "syntax error: ") (lit ", column 0") 12).
  - apply re_search_line_no_match. vm_compute. reflexivity.
  - reflexivity.
  - reflexivity.
Defined.

(** ** 25. UTF-8: encoding what was decoded *)

Lemma cont_range (b : N) : is_cont b = true -> 0x80 <= b <= 0xBF.
Proof.
  unfold is_cont. intros H. apply andb_true_iff in H. destruct H as [H1 H2].
  apply N.leb_le in H1, H2. lia.
Qed.

Lemma range_true (lo hi b : N) :
  (lo <=? b) && (b <=? hi) = true -> lo <= b <= hi.
Proof.
  intros H. apply andb_true_iff in H. destruct H as [H1 H2].
  apply N.leb_le in H1, H2. lia.
Qed.

Lemma implb_eq (b x : N) (P : bool) :
  negb (b =? x) || P = true -> b = x -> P = true.
Proof. intros H ->. now rewrite N.eqb_refl in H. Qed.

Lemma div_mod_unique (c q r : N) :
  c = 64 * q + r -> r < 64 -> c / 64 = q /\ c mod 64 = r.
Proof.
  intros E Hr. split.
  - symmetry. apply (N.div_unique c 64 q r Hr E).
  - symmetry. apply (N.mod_unique c 64 q r Hr E).
Qed.

(** The encoding of a character read from two, three or four bytes is those
    bytes. *)
Lemma encode_two (b0 b1 : N) :
  0xC2 <= b0 <= 0xDF -> 0x80 <= b1 <= 0xBF ->
  utf8_encode_char ((b0 - 0xC0) * 64 + cont b1) = [b0; b1].
Proof.
  intros H0 H1. unfold utf8_encode_char, cont.
  set (c := (b0 - 0xC0) * 64 + (b1 - 0x80)).
  rewrite (leb_false c 0x7F), (leb_true c 0x7FF) by (subst c; lia).
  destruct (div_mod_unique c (b0 - 0xC0) (b1 - 0x80)) as [-> ->];
    [subst c; lia | lia |].
  f_equal; [lia|]. f_equal. lia.
Qed.

Lemma encode_three (b0 b1 b2 : N) :
  0xE0 <= b0 <= 0xEF -> 0x80 <= b1 <= 0xBF -> 0x80 <= b2 <= 0xBF ->
  (b0 = 0xE0 -> 0xA0 <= b1) ->
  utf8_encode_char ((b0 - 0xE0) * 4096 + cont b1 * 64 + cont b2)
  = [b0; b1; b2].
Proof.
  intros H0 H1 H2 Hlow. unfold utf8_encode_char, cont.
  set (c := (b0 - 0xE0) * 4096 + (b1 - 0x80) * 64 + (b2 - 0x80)).
  assert (Hc : 0x800 <= c <= 0xFFFF).
  { subst c. destruct (N.eq_dec b0 0xE0) as [E|E]; [specialize (Hlow E)|];
      lia. }
  rewrite (leb_false c 0x7F), (leb_false c 0x7FF), (leb_true c 0xFFFF) by lia.
  change 4096 with (64 * 64). rewrite <- N.Div0.div_div.
  destruct (div_mod_unique c ((b0 - 0xE0) * 64 + (b1 - 0x80)) (b2 - 0x80))
    as [-> ->]; [subst c; lia | lia |].
  destruct (div_mod_unique ((b0 - 0xE0) * 64 + (b1 - 0x80)) (b0 - 0xE0)
              (b1 - 0x80)) as [-> ->]; [lia | lia |].
  f_equal; [lia|]. f_equal; [lia|]. f_equal. lia.
Qed.

Lemma encode_four (b0 b1 b2 b3 : N) :
  0xF0 <= b0 <= 0xF4 -> 0x80 <= b1 <= 0xBF -> 0x80 <= b2 <= 0xBF ->
  0x80 <= b3 <= 0xBF ->
  (b0 = 0xF0 -> 0x90 <= b1) ->
  utf8_encode_char ((b0 - 0xF0) * 262144 + cont b1 * 4096 + cont b2 * 64
                    + cont b3)
  = [b0; b1; b2; b3].
Proof.
  intros H0 H1 H2 H3 Hlow. unfold utf8_encode_char, cont.
  set (c := (b0 - 0xF0) * 262144 + (b1 - 0x80) * 4096 + (b2 - 0x80) * 64
            + (b3 - 0x80)).
  assert (Hc : 0x10000 <= c).
  { subst c. destruct (N.eq_dec b0 0xF0) as [E|E]; [specialize (Hlow E)|];
      lia. }
  rewrite (leb_false c 0x7F), (leb_false c 0x7FF), (leb_false c 0xFFFF)
    by lia.
  change 262144 with (64 * 64 * 64). change 4096 with (64 * 64).
  rewrite <- !N.Div0.div_div.
  destruct (div_mod_unique c
              ((b0 - 0xF0) * 4096 + (b1 - 0x80) * 64 + (b2 - 0x80))
              (b3 - 0x80)) as [-> ->]; [subst c; lia | lia |].
  destruct (div_mod_unique
              ((b0 - 0xF0) * 4096 + (b1 - 0x80) * 64 + (b2 - 0x80))
              ((b0 - 0xF0) * 64 + (b1 - 0x80)) (b2 - 0x80)) as [-> ->];
    [lia | lia |].
  destruct (div_mod_unique ((b0 - 0xF0) * 64 + (b1 - 0x80)) (b0 - 0xF0)
              (b1 - 0x80)) as [-> ->]; [lia | lia |].
  f_equal; [lia|]. f_equal; [lia|]. f_equal; [lia|]. f_equal. lia.
Qed.

(** Strong induction on the length of a list. *)
Lemma list_length_ind (A : Type) (P : list A -> Prop) :
  (forall l, (forall l', (length l' < length l)%nat -> P l') -> P l) ->
  forall l, P l.
Proof.
  intros H l. assert (G : forall n l, (length l < n)%nat -> P l).
  { induction n as [|n IH]; intros l' Hl; [lia|].
    apply H. intros l'' Hl''. apply IH. lia. }
  apply (G (S (length l))). lia.
Qed.

(** What decodes as UTF-8 encodes to the same octets. *)
Lemma utf8_encode_decoded (bs : list N) :
  forall s, utf8_decode bs = Some s -> flat_map utf8_encode_char s = bs.
Proof.
  induction bs as [bs IH] using list_length_ind. intros s.
  destruct bs as [|b0 t0]; [intros [= <-]; reflexivity|].
  cbn [utf8_decode].
  destruct (b0 <=? 0x7F) eqn:E1.
  { destruct (utf8_decode t0) as [s'|] eqn:Ed; [|discriminate].
    intros [= <-]. cbn [flat_map]. unfold utf8_encode_char at 1.
    rewrite E1. cbn [app]. f_equal. apply IH; [simpl; lia|exact Ed]. }
  destruct ((0xC2 <=? b0) && (b0 <=? 0xDF)) eqn:E2.
  { destruct t0 as [|b1 t1]; [discriminate|].
    destruct (is_cont b1) eqn:C1; [|discriminate].
    destruct (utf8_decode t1) as [s'|] eqn:Ed; [|discriminate].
    intros [= <-]. cbn [flat_map].
    rewrite encode_two by (auto using range_true, cont_range).
    cbn [app]. do 2 f_equal. apply IH; [simpl; lia|exact Ed]. }
  destruct ((0xE0 <=? b0) && (b0 <=? 0xEF)) eqn:E3.
  { destruct t0 as [|b1 [|b2 t2]]; try discriminate.
    destruct (is_cont b1) eqn:C1; [|discriminate].
    destruct (is_cont b2) eqn:C2; [|discriminate].
    cbn [andb].
    destruct (negb (b0 =? 0xE0) || (0xA0 <=? b1)) eqn:G1; [|discriminate].
    cbn [andb].
    destruct (negb (b0 =? 0xED) || (b1 <=? 0x9F)) eqn:G2; [|discriminate].
    destruct (utf8_decode t2) as [s'|] eqn:Ed; [|discriminate].
    intros [= <-]. cbn [flat_map].
    rewrite encode_three; auto using range_true, cont_range.
    - cbn [app]. do 3 f_equal. apply IH; [simpl; lia|exact Ed].
    - intros E. apply N.leb_le. now apply (implb_eq b0 0xE0). }
  destruct ((0xF0 <=? b0) && (b0 <=? 0xF4)) eqn:E4; [|discriminate].
  destruct t0 as [|b1 [|b2 [|b3 t3]]]; try discriminate.
  destruct (is_cont b1) eqn:C1; [|discriminate].
  destruct (is_cont b2) eqn:C2; [|discriminate].
  destruct (is_cont b3) eqn:C3; [|discriminate].
  cbn [andb].
  destruct (negb (b0 =? 0xF0) || (0x90 <=? b1)) eqn:G1; [|discriminate].
  cbn [andb].
  destruct (negb (b0 =? 0xF4) || (b1 <=? 0x8F)) eqn:G2; [|discriminate].
  destruct (utf8_decode t3) as [s'|] eqn:Ed; [|discriminate].
  intros [= <-]. cbn [flat_map].
  rewrite encode_four; auto using range_true, cont_range.
  - cbn [app]. do 4 f_equal. apply IH; [simpl; lia|exact Ed].
  - intros E. apply N.leb_le. now apply (implb_eq b0 0xF0).
Qed.

Lemma byte_of_to_N (b : byte) : byte_of_N (Byte.to_N b) = b.
Proof. unfold byte_of_N. now rewrite Byte.of_to_N. Qed.

(** [contents.decode("utf-8").encode("utf-8")] gives [contents] back. *)
Lemma utf8_decode_round_trip (contents : bytes) (s : str) :
  bytes_decode_utf8 contents = Returned s ->
  str_encode_utf8 s = contents.
Proof.
  unfold bytes_decode_utf8.
  destruct (utf8_decode (map Byte.to_N contents)) as [s'|] eqn:E;
    [|discriminate].
  intros [= <-]. apply utf8_encode_decoded in E.
  assert (H : str_encode_utf8 s'
              = map byte_of_N (flat_map utf8_encode_char s')).
  { unfold str_encode_utf8. clear E.
    induction s' as [|c s' IH]; [reflexivity|].
    cbn [flat_map]. now rewrite map_app, IH. }
  rewrite H, E, map_map. rewrite <- (map_id contents) at 2.
  apply map_ext. apply byte_of_to_N.
Qed.

Section Agreement.

Context {L : Libraries}.

(** X13.  A valid UTF-8 upload reaches the parsers byte for byte: when the
    named upload is at most 1,000,000 bytes, is valid UTF-8 and neither
    starts nor ends with white space (stripping leaves its text as it is),
    the validating parser is called with exactly the uploaded bytes. *)
Theorem utf8_upload_validated_verbatim (e : endpoint) (w : World)
    (rq : Request) (xml_text : option str) (f : UploadFile) (name s : str) :
  filename f = Some name -> name <> [] ->
  len (file_contents f) <= MAX_XML_BYTES ->
  bytes_decode_utf8 (file_contents f) = Returned s ->
  s <> [] -> strip s = s ->
  exists rest,
    calls_of (handle e w rq xml_text (Some f))
    = Call_defused_fromstring (file_contents f) :: rest.
Proof.
  intros Hf Hname Hn Hd Hs Hstrip.
  assert (Hu : named_upload (Some f) = Some f).
  { unfold named_upload. rewrite Hf.
    destruct name; [contradiction|reflexivity]. }
  assert (Hm : measured_size xml_text (Some f) = Some (len (file_contents f)))
    by (unfold measured_size; now rewrite Hu).
  assert (Hi : input_text xml_text (Some f) = s).
  { unfold input_text. rewrite Hu. unfold bytes_decode_utf8 in Hd.
    destruct (utf8_decode (map Byte.to_N (file_contents f)));
      [now injection Hd as -> | discriminate Hd]. }
  rewrite <- (utf8_decode_round_trip (file_contents f) s Hd).
  apply N.ltb_ge in Hn.
  destruct e; cbn [handle];
    [rewrite xml_format_spec | rewrite xml_minify_spec
     | rewrite xml_convert_spec];
    rewrite Hm, Hn, Hi, Hstrip; cbv zeta;
    (destruct s as [|c s]; [contradiction|]);
    destruct (defused_fromstring (str_encode_utf8 (c :: s)));
    try (eexists; reflexivity).
  - destruct (minidom_parseString (str_encode_utf8 (c :: s))) as [dom|];
      [destruct (toprettyxml dom (spaces (chosen_indent indent_spaces)))|];
      eexists; reflexivity.
  - destruct (ET_fromstring (c :: s)) as [tree|];
      [destruct (ET_tostring tree)|]; eexists; reflexivity.
  - destruct (xmltodict_parse (c :: s)); eexists; reflexivity.
Qed.

(** X14.  The three endpoints agree on what they refuse before the
    transform: for an input (pasted or uploaded) that is over the size
    limit, or blank, or rejected by the validating parser, [/xml/format],
    [/xml/minify] and [/xml/convert] give the same response after the same
    library calls. *)
Theorem endpoints_agree_on_refused_input (e1 e2 : endpoint) (w : World)
    (rq : Request) (xml_text : option str) (xml_file : option UploadFile)
    (n : N) :
  measured_size xml_text xml_file = Some n ->
  (MAX_XML_BYTES < n
   \/ strip (input_text xml_text xml_file) = []
   \/ exists msg,
        defused_fromstring
          (str_encode_utf8 (strip (input_text xml_text xml_file)))
        = Raised msg) ->
  handle e1 w rq xml_text xml_file = handle e2 w rq xml_text xml_file.
Proof.
  intros Hm H.
  destruct (N.ltb_spec MAX_XML_BYTES n) as [Hn|Hn].
  { now rewrite !(oversized_response _ w rq xml_text xml_file n Hm Hn). }
  destruct H as [H | [H | [msg H]]]; [lia| |].
  - now rewrite !(blank_within_limit _ w rq xml_text xml_file n Hm Hn H).
  - destruct (strip (input_text xml_text xml_file)) as [|c raw] eqn:Hraw.
    + now rewrite !(blank_within_limit _ w rq xml_text xml_file n Hm Hn Hraw).
    + assert (Hne : strip (input_text xml_text xml_file) <> [])
        by (rewrite Hraw; discriminate).
      rewrite <- Hraw in H.
      now rewrite !(rejected_response _ w rq xml_text xml_file n msg
                      Hm Hn Hne H).
Qed.

End Agreement.

(** X13 at work: [<a/>] uploaded as [a.xml]. *)
Lemma utf8_upload_validated_verbatim_example :
  exists rest,
    calls_of (handle (L := reference_libraries) Minify new_year plain_request
                None
                (Some {| filename := Some (lit "a.xml");
                         file_contents := [x3c; x61; x2f; x3e]%byte |}))
    = Call_defused_fromstring [x3c; x61; x2f; x3e]%byte :: rest.
Proof.
  apply (utf8_upload_validated_verbatim (L := reference_libraries) Minify
           new_year plain_request None
           {| filename := Some (lit "a.xml");
              file_contents := [x3c; x61; x2f; x3e]%byte |}
           (lit "a.xml") (lit "<a/>")).
  - reflexivity.
  - discriminate.
  - vm_compute. discriminate.
  - reflexivity.
  - discriminate.
  - reflexivity.
Defined.

(** X14 at work: [<a><b></a>] sent to [/xml/format] and to
    [/xml/convert]. *)
Lemma endpoints_agree_on_refused_input_example :
  handle (L := reference_libraries) (Format 2) new_year plain_request
    (Some (lit "<a><b></a>")) None
  = handle (L := reference_libraries) Convert new_year plain_request
      (Some (lit "<a><b></a>")) None.
Proof.
  apply (endpoints_agree_on_refused_input (L := reference_libraries)
           (Format 2) Convert new_year plain_request
           (Some (lit "<a><b></a>")) None 10).
  - reflexivity.
  - right. right. eexists. vm_compute. reflexivity.
Defined.
